(** * riscv-vm: the RV32 interpreter core ([riscv_core/riscv.c])

    A shallow embedding of the interpreter: hart state, instruction decode,
    one handler per opcode group, the dispatch table, [rv_step] and
    [rv_reset]; followed by the properties of the handlers and of the run
    loop. *)

From Stdlib Require Import ZArith Bool List Lia.
Import ListNotations.

Local Open Scope Z_scope.

(** ** Machine integers

    Registers, addresses and instruction words are [uint32_t]; they are
    carried as [Z] and every store into a C object of a given width is
    written out as a reduction modulo that width. *)

Module Word.

Definition u8  (z : Z) : Z := z mod 2 ^ 8.
Definition u16 (z : Z) : Z := z mod 2 ^ 16.
Definition u32 (z : Z) : Z := z mod 2 ^ 32.
Definition u64 (z : Z) : Z := z mod 2 ^ 64.

(** The casts [(int8_t)], [(int16_t)], [(int32_t)], [(int64_t)]. *)
Definition s8  (z : Z) : Z := (z + 2 ^ 7)  mod 2 ^ 8  - 2 ^ 7.
Definition s16 (z : Z) : Z := (z + 2 ^ 15) mod 2 ^ 16 - 2 ^ 15.
Definition s32 (z : Z) : Z := (z + 2 ^ 31) mod 2 ^ 32 - 2 ^ 31.
Definition s64 (z : Z) : Z := (z + 2 ^ 63) mod 2 ^ 64 - 2 ^ 63.

(** [~x] on a [uint32_t]. *)
Definition not32 (z : Z) : Z := u32 (Z.lnot z).

(** A value is a well-formed [uint32_t]. *)
Definition is_u32 (z : Z) : Prop := 0 <= z < 2 ^ 32.

End Word.
Import Word.

(** ** Decoder

    [riscv_private.h] is not part of the sources at hand; the field
    extractors below follow the RISC-V base encoding, which is what the
    handlers expect of them. *)

Module Decode.

(** Modelled from the spec: [INST_6_2], the mask of opcode bits [6:2]
    (declared in the absent [riscv_private.h]). *)
Definition INST_6_2 : Z := 0x7c.

(** Modelled from the spec: [dec_rd] of the absent [riscv_private.h],
    the register index in bits [11:7]. *)
Definition dec_rd (inst : Z) : Z := Z.shiftr (Z.land inst 0x00000f80) 7.

(** Modelled from the spec: [dec_rs1] of the absent [riscv_private.h],
    the register index in bits [19:15]. *)
Definition dec_rs1 (inst : Z) : Z := Z.shiftr (Z.land inst 0x000f8000) 15.

(** Modelled from the spec: [dec_rs2] of the absent [riscv_private.h],
    the register index in bits [24:20]. *)
Definition dec_rs2 (inst : Z) : Z := Z.shiftr (Z.land inst 0x01f00000) 20.

(** Modelled from the spec: [dec_funct3] of the absent
    [riscv_private.h], bits [14:12]. *)
Definition dec_funct3 (inst : Z) : Z := Z.shiftr (Z.land inst 0x00007000) 12.

(** Modelled from the spec: [dec_funct7] of the absent
    [riscv_private.h], bits [31:25]. *)
Definition dec_funct7 (inst : Z) : Z := Z.shiftr (Z.land inst 0xfe000000) 25.

(** Modelled from the spec: [dec_r4type_fmt] of the absent
    [riscv_private.h], bits [26:25]. *)
Definition dec_r4type_fmt (inst : Z) : Z := Z.shiftr (Z.land inst 0x06000000) 25.

(** Modelled from the spec: [dec_r4type_rs3] of the absent
    [riscv_private.h], the register index in bits [31:27]. *)
Definition dec_r4type_rs3 (inst : Z) : Z := Z.shiftr (Z.land inst 0xf8000000) 27.

(** Modelled from the spec: [dec_csr] of the absent [riscv_private.h],
    the 12-bit CSR index in bits [31:20]. *)
Definition dec_csr (inst : Z) : Z := Z.shiftr (Z.land inst 0xfff00000) 20.

(** Modelled from the spec: [dec_itype_imm] of the absent
    [riscv_private.h], bits [31:20] sign-extended. *)
Definition dec_itype_imm (inst : Z) : Z :=
  Z.shiftr (s32 (Z.land inst 0xfff00000)) 20.

(** Modelled from the spec: [dec_utype_imm] of the absent
    [riscv_private.h], bits [31:12] in place. *)
Definition dec_utype_imm (inst : Z) : Z := Z.land inst 0xfffff000.

(** Modelled from the spec: [dec_stype_imm] of the absent
    [riscv_private.h]; imm[11:5] in bits [31:25], imm[4:0] in bits
    [11:7], sign-extended. *)
Definition dec_stype_imm (inst : Z) : Z :=
  let dst := Z.lor (Z.land inst 0xfe000000)
                   (Z.shiftl (Z.land inst 0x00000f80) 13) in
  Z.shiftr (s32 dst) 20.

(** Modelled from the spec: [dec_btype_imm] of the absent
    [riscv_private.h]; imm[12] in bit 31, imm[10:5] in bits [30:25],
    imm[4:1] in bits [11:8], imm[11] in bit 7, sign-extended; bit 0 of
    the immediate is always clear. *)
Definition dec_btype_imm (inst : Z) : Z :=
  let dst := Z.lor (Z.lor (Z.lor
               (Z.land inst 0x80000000)
               (Z.shiftl (Z.land inst 0x00000080) 23))
               (Z.shiftr (Z.land inst 0x7e000000) 1))
               (Z.shiftl (Z.land inst 0x00000f00) 12) in
  Z.shiftr (s32 dst) 19.

(** Modelled from the spec: [dec_jtype_imm] of the absent
    [riscv_private.h]; imm[20] in bit 31, imm[10:1] in bits [30:21],
    imm[11] in bit 20, imm[19:12] in bits [19:12], sign-extended. *)
Definition dec_jtype_imm (inst : Z) : Z :=
  let dst := Z.lor (Z.lor (Z.lor
               (Z.land inst 0x80000000)
               (Z.shiftl (Z.land inst 0x000ff000) 11))
               (Z.shiftl (Z.land inst 0x00100000) 2))
               (Z.shiftr (Z.land inst 0x7fe00000) 9) in
  Z.shiftr (s32 dst) 11.

(** Modelled from the spec: [sign_extend_b] of the absent
    [riscv_private.h], [(int32_t)(int8_t)x] stored in a register. *)
Definition sign_extend_b (x : Z) : Z := u32 (s8 x).

(** Modelled from the spec: [sign_extend_h] of the absent
    [riscv_private.h], [(int32_t)(int16_t)x] stored in a register. *)
Definition sign_extend_h (x : Z) : Z := u32 (s16 x).

End Decode.
Import Decode.

(** ** Constants of [riscv.h] and [riscv_private.h] *)

(** Modelled from the spec: the register names [rv_reg_zero] and
    [rv_reg_sp] of the absent [riscv.h] (x0 and x2 in the RISC-V ABI). *)
Definition rv_reg_zero : Z := 0.
Definition rv_reg_sp : Z := 2.

(** Modelled from the spec: the exception tags of the absent
    [riscv_private.h].  [rv_step] tests the latch with [!rv->exception],
    so the tag "none" is zero; "instruction-misaligned" is the first tag
    after it. *)
Definition rv_except_none : Z := 0.
Definition rv_except_inst_misaligned : Z := 1.

(** Modelled from the spec: the CSR indices of the absent
    [riscv_private.h], with their numbers in the RISC-V CSR map. *)
Definition CSR_FCSR    : Z := 0x003.
Definition CSR_MSTATUS : Z := 0x300.
Definition CSR_CYCLE   : Z := 0xC00.
Definition CSR_CYCLEH  : Z := 0xC80.

(** The [FMASK_*] enum in front of [calc_fclass]. *)
Definition FMASK_SIGN : Z := 0x80000000.
Definition FMASK_EXPN : Z := 0x7f800000.
Definition FMASK_FRAC : Z := 0x007fffff.

(** The build-time switches ([#if RISCV_VM_SUPPORT_...]). *)
Record rv_config : Type := mk_config {
  SUPPORT_RV32M    : bool;
  SUPPORT_RV32A    : bool;
  SUPPORT_RV32F    : bool;
  SUPPORT_Zicsr    : bool;
  SUPPORT_Zifencei : bool
}.

(** ** Pure parts of the handlers *)

(** [calc_fclass]: the ten tests are or-ed into [out] one after the
    other. *)
Definition calc_fclass (f : Z) : Z :=
  let sign := Z.land f FMASK_SIGN in
  let expn := Z.land f FMASK_EXPN in
  let frac := Z.land f FMASK_FRAC in
  let nz (z : Z) : bool := negb (z =? 0) in
  let bit (c : bool) (m : Z) : Z := if c then m else 0 in
  let out := 0 in
  let out := Z.lor out (bit (f =? 0xff800000) 0x001) in
  let out := Z.lor out (bit (nz expn && (expn <? 0x78000000) && nz sign) 0x002) in
  let out := Z.lor out (bit (negb (nz expn) && nz frac && nz sign) 0x004) in
  let out := Z.lor out (bit (f =? 0x80000000) 0x008) in
  let out := Z.lor out (bit (f =? 0x00000000) 0x010) in
  let out := Z.lor out (bit (negb (nz expn) && nz frac && negb (nz sign)) 0x020) in
  let out := Z.lor out (bit (nz expn && (expn <? 0x78000000) && negb (nz sign)) 0x040) in
  let out := Z.lor out (bit (f =? 0x7f800000) 0x080) in
  let out := Z.lor out (bit ((expn =? FMASK_EXPN) && (frac <=? 0x7ff) && nz frac) 0x100) in
  let out := Z.lor out (bit ((expn =? FMASK_EXPN) && (frac >=? 0x800)) 0x200) in
  out.

(** The classification the specification words for FCLASS.S, read off the
    IEEE 754 fields of the pattern: sign (bit 31), exponent (bits 30:23),
    fraction (bits 22:0) and, for a NaN, the quiet bit (bit 22).  It is
    the reference [calc_fclass] is compared with; no handler uses it. *)
Definition fclass_spec (f : Z) : Z :=
  let sign  := Z.testbit f 31 in
  let expo  := Z.land (Z.shiftr f 23) 0xff in
  let frac  := Z.land f 0x7fffff in
  let quiet := Z.testbit f 22 in
  if expo =? 0xff then
    if frac =? 0 then (if sign then 0x001 else 0x080)
    else (if quiet then 0x200 else 0x100)
  else if expo =? 0 then
    if frac =? 0 then (if sign then 0x008 else 0x010)
    else (if sign then 0x004 else 0x020)
  else (if sign then 0x002 else 0x040).

(** The four division blocks of [op_op] (funct7 = 1, funct3 = 4..7);
    [a] is [rv->X[rs1]], [b] is [rv->X[rs2]], the result is the value
    stored into [rv->X[rd]].  C's [/] and [%] truncate toward zero:
    [Z.quot] and [Z.rem]. *)
Definition rv_div (a b : Z) : Z :=
  let dividend := s32 a in
  let divisor := s32 b in
  if divisor =? 0 then not32 0
  else if (divisor =? -1) && (a =? 0x80000000) then a
  else u32 (Z.quot dividend divisor).

Definition rv_divu (a b : Z) : Z :=
  let dividend := a in
  let divisor := b in
  if divisor =? 0 then not32 0
  else u32 (Z.quot dividend divisor).

Definition rv_rem (a b : Z) : Z :=
  let dividend := s32 a in
  let divisor := s32 b in
  if divisor =? 0 then u32 dividend
  else if (divisor =? -1) && (a =? 0x80000000) then 0
  else u32 (Z.rem dividend divisor).

Definition rv_remu (a b : Z) : Z :=
  let dividend := a in
  let divisor := b in
  if divisor =? 0 then dividend
  else u32 (Z.rem dividend divisor).

(** The switch of [op_branch] that computes [taken]; [None] is the
    [assert(!"unreachable")] of its default case. *)
Definition branch_taken (func3 a b : Z) : option bool :=
  match func3 with
  | 0 => Some (a =? b)
  | 1 => Some (negb (a =? b))
  | 4 => Some (s32 a <? s32 b)
  | 5 => Some (s32 a >=? s32 b)
  | 6 => Some (a <? b)
  | 7 => Some (a >=? b)
  | _ => None
  end.

(** ** Hart state and host interface *)

(** [struct riscv_t], without the [io] record: [rv_create] copies the
    callbacks into the hart once and nothing in [riscv.c] writes them
    afterwards, so they are a parameter of the handlers.  [X] and [F] are
    arrays of [RV_NUM_REGS] = 32 cells indexed by 5-bit decode fields only;
    they are total maps from the index.  An [F] cell holds the 32-bit
    pattern of its [float].  [userdata] is the host's context, of a type
    [H] the core knows nothing about. *)
Record riscv_t (H : Type) : Type := mk_riscv {
  X           : Z -> Z;
  PC          : Z;
  F           : Z -> Z;
  csr_cycle   : Z;
  csr_mstatus : Z;
  csr_fcsr    : Z;
  exception   : Z;
  userdata    : H
}.

Arguments mk_riscv {H}.
Arguments X {H}.
Arguments PC {H}.
Arguments F {H}.
Arguments csr_cycle {H}.
Arguments csr_mstatus {H}.
Arguments csr_fcsr {H}.
Arguments exception {H}.
Arguments userdata {H}.

(** Modelled from the spec: [struct riscv_io_t] of the absent [riscv.h].
    Memory callbacks act on the host's context and return the value read,
    of the width the callback's C type gives it; the two trap hooks are
    handed the hart itself and may change any of it. *)
Record riscv_io_t (H : Type) : Type := mk_io {
  mem_ifetch  : H -> Z -> Z * H;
  mem_read_w  : H -> Z -> Z * H;
  mem_read_s  : H -> Z -> Z * H;
  mem_read_b  : H -> Z -> Z * H;
  mem_write_w : H -> Z -> Z -> H;
  mem_write_s : H -> Z -> Z -> H;
  mem_write_b : H -> Z -> Z -> H;
  on_ecall    : riscv_t H -> Z -> Z -> riscv_t H;
  on_ebreak   : riscv_t H -> Z -> Z -> riscv_t H
}.

Arguments mk_io {H}.
Arguments mem_ifetch {H}.
Arguments mem_read_w {H}.
Arguments mem_read_s {H}.
Arguments mem_read_b {H}.
Arguments mem_write_w {H}.
Arguments mem_write_s {H}.
Arguments mem_write_b {H}.
Arguments on_ecall {H}.
Arguments on_ebreak {H}.

(** The host's single-precision arithmetic ([<math.h>] and the C
    operators on [float]), on 32-bit patterns.  The conversions to an
    integer return the C result before it is stored in a register. *)
Record fp_host : Type := mk_fp {
  fp_add  : Z -> Z -> Z;
  fp_sub  : Z -> Z -> Z;
  fp_mul  : Z -> Z -> Z;
  fp_div  : Z -> Z -> Z;
  fp_neg  : Z -> Z;
  fp_sqrt : Z -> Z;
  fp_min  : Z -> Z -> Z;
  fp_max  : Z -> Z -> Z;
  fp_to_int32  : Z -> Z;
  fp_to_uint32 : Z -> Z;
  fp_of_int32  : Z -> Z;
  fp_of_uint32 : Z -> Z;
  fp_eq : Z -> Z -> bool;
  fp_lt : Z -> Z -> bool;
  fp_le : Z -> Z -> bool
}.

(** Array cell update. *)
Definition upd (a : Z -> Z) (i v : Z) : Z -> Z :=
  fun j => if j =? i then v else a j.

(** ** Handlers *)

Section Interpreter.

Context {H : Type}.
Variable io : riscv_io_t H.
Variable fp : fp_host.
Variable cfg : rv_config.

Local Abbreviation hart := (riscv_t H).

(** A handler runs on the hart and either completes with a value or
    stops the process in an [assert]. *)
Definition M (A : Type) : Type := hart -> option (A * hart).

Definition ret {A} (a : A) : M A := fun rv => Some (a, rv).

Definition bind {A B} (m : M A) (k : A -> M B) : M B :=
  fun rv => match m rv with
            | Some (a, rv') => k a rv'
            | None => None
            end.

(** [assert(!"unreachable")] *)
Definition unreachable {A} : M A := fun _ => None.

Local Notation "x <- m ;; k" := (bind m (fun x => k))
  (at level 61, m at next level, right associativity).
Local Notation "m ;; k" := (bind m (fun _ => k))
  (at level 61, right associativity).

Definition get {A} (f : hart -> A) : M A := fun rv => Some (f rv, rv).
Definition modify (f : hart -> hart) : M unit := fun rv => Some (tt, f rv).

Definition set_X_cell (r v : Z) (rv : hart) : hart :=
  mk_riscv (upd (X rv) r v) (PC rv) (F rv) (csr_cycle rv) (csr_mstatus rv)
           (csr_fcsr rv) (exception rv) (userdata rv).
Definition set_F_cell (r v : Z) (rv : hart) : hart :=
  mk_riscv (X rv) (PC rv) (upd (F rv) r v) (csr_cycle rv) (csr_mstatus rv)
           (csr_fcsr rv) (exception rv) (userdata rv).
Definition set_PC (v : Z) (rv : hart) : hart :=
  mk_riscv (X rv) v (F rv) (csr_cycle rv) (csr_mstatus rv)
           (csr_fcsr rv) (exception rv) (userdata rv).
Definition set_csr_cycle (v : Z) (rv : hart) : hart :=
  mk_riscv (X rv) (PC rv) (F rv) v (csr_mstatus rv)
           (csr_fcsr rv) (exception rv) (userdata rv).
Definition set_csr_mstatus (v : Z) (rv : hart) : hart :=
  mk_riscv (X rv) (PC rv) (F rv) (csr_cycle rv) v
           (csr_fcsr rv) (exception rv) (userdata rv).
Definition set_csr_fcsr (v : Z) (rv : hart) : hart :=
  mk_riscv (X rv) (PC rv) (F rv) (csr_cycle rv) (csr_mstatus rv)
           v (exception rv) (userdata rv).
Definition set_exception (v : Z) (rv : hart) : hart :=
  mk_riscv (X rv) (PC rv) (F rv) (csr_cycle rv) (csr_mstatus rv)
           (csr_fcsr rv) v (userdata rv).
Definition set_userdata (h : H) (rv : hart) : hart :=
  mk_riscv (X rv) (PC rv) (F rv) (csr_cycle rv) (csr_mstatus rv)
           (csr_fcsr rv) (exception rv) h.

(** [rv->X[r]], [rv->X[r] = v], and the same for [F] and [PC]. *)
Definition getX (r : Z) : M Z := get (fun rv => X rv r).
Definition setX (r v : Z) : M unit := modify (set_X_cell r v).
Definition getF (r : Z) : M Z := get (fun rv => F rv r).
Definition setF (r v : Z) : M unit := modify (set_F_cell r v).
Definition getPC : M Z := get PC.
Definition setPC (v : Z) : M unit := modify (set_PC v).

(** Calls through [rv->io]. *)
Definition io_read (cb : H -> Z -> Z * H) (width : Z -> Z) (addr : Z) : M Z :=
  fun rv => let (v, h) := cb (userdata rv) addr in
            Some (width v, set_userdata h rv).
Definition io_write (cb : H -> Z -> Z -> H) (width : Z -> Z) (addr val : Z)
  : M unit :=
  modify (fun rv => set_userdata (cb (userdata rv) addr (width val)) rv).
Definition io_trap (cb : hart -> Z -> Z -> hart) (inst : Z) : M unit :=
  modify (fun rv => cb rv (PC rv) inst).

(** [raise_exception] *)
Definition raise_exception (type : Z) : M unit := modify (set_exception type).

(** The two closing steps most handlers share: [rv->PC += 4] and
    "enforce zero register". *)
Definition step_over : M unit := pc <- getPC ;; setPC (u32 (pc + 4)).
Definition enforce_zero (rd : Z) : M unit :=
  if rd =? rv_reg_zero then setX rv_reg_zero 0 else ret tt.

(** [if (rv->PC & 0x3) raise_exception(rv, rv_except_inst_misaligned)] *)
Definition check_alignment : M unit :=
  pc <- getPC ;;
  if negb (Z.land pc 0x3 =? 0) then raise_exception rv_except_inst_misaligned
  else ret tt.

Definition op_load (inst : Z) : M bool :=
  let imm    := dec_itype_imm inst in
  let rs1    := dec_rs1 inst in
  let funct3 := dec_funct3 inst in
  let rd     := dec_rd inst in
  x1 <- getX rs1 ;;
  let addr := u32 (x1 + imm) in
  match funct3 with
  | 0 => v <- io_read (mem_read_b io) u8 addr ;; setX rd (sign_extend_b v)
  | 1 => v <- io_read (mem_read_s io) u16 addr ;; setX rd (sign_extend_h v)
  | 2 => v <- io_read (mem_read_w io) u32 addr ;; setX rd v
  | 4 => v <- io_read (mem_read_b io) u8 addr ;; setX rd v
  | 5 => v <- io_read (mem_read_s io) u16 addr ;; setX rd v
  | _ => unreachable
  end ;;
  step_over ;;
  enforce_zero rd ;;
  ret true.

Definition op_misc_mem (inst : Z) : M bool :=
  step_over ;;
  ret true.

Definition op_op_imm (inst : Z) : M bool :=
  let imm    := dec_itype_imm inst in
  let rd     := dec_rd inst in
  let rs1    := dec_rs1 inst in
  let funct3 := dec_funct3 inst in
  x1 <- getX rs1 ;;
  match funct3 with
  | 0 => setX rd (u32 (s32 x1 + imm))
  | 1 => setX rd (u32 (Z.shiftl x1 (Z.land imm 0x1f)))
  | 2 => setX rd (if s32 x1 <? imm then 1 else 0)
  | 3 => setX rd (if x1 <? u32 imm then 1 else 0)
  | 4 => setX rd (Z.lxor x1 (u32 imm))
  | 5 => if negb (Z.land imm (Z.lnot 0x1f) =? 0)
         then setX rd (u32 (Z.shiftr (s32 x1) (Z.land imm 0x1f)))
         else setX rd (Z.shiftr x1 (Z.land imm 0x1f))
  | 6 => setX rd (Z.lor x1 (u32 imm))
  | 7 => setX rd (Z.land x1 (u32 imm))
  | _ => unreachable
  end ;;
  step_over ;;
  enforce_zero rd ;;
  ret true.

Definition op_auipc (inst : Z) : M bool :=
  let rd := dec_rd inst in
  pc <- getPC ;;
  let val := u32 (dec_utype_imm inst + pc) in
  setX rd val ;;
  step_over ;;
  enforce_zero rd ;;
  ret true.

Definition op_store (inst : Z) : M bool :=
  let imm    := dec_stype_imm inst in
  let rs1    := dec_rs1 inst in
  let rs2    := dec_rs2 inst in
  let funct3 := dec_funct3 inst in
  x1 <- getX rs1 ;;
  let addr := u32 (x1 + imm) in
  data <- getX rs2 ;;
  match funct3 with
  | 0 => io_write (mem_write_b io) u8 addr data
  | 1 => io_write (mem_write_s io) u16 addr data
  | 2 => io_write (mem_write_w io) u32 addr data
  | _ => unreachable
  end ;;
  step_over ;;
  ret true.

Definition op_op (inst : Z) : M bool :=
  let rd     := dec_rd inst in
  let funct3 := dec_funct3 inst in
  let rs1    := dec_rs1 inst in
  let rs2    := dec_rs2 inst in
  let funct7 := dec_funct7 inst in
  x1 <- getX rs1 ;;
  x2 <- getX rs2 ;;
  match funct7 with
  | 0 =>
      match funct3 with
      | 0 => setX rd (u32 (s32 x1 + s32 x2))
      | 1 => setX rd (u32 (Z.shiftl x1 (Z.land x2 0x1f)))
      | 2 => setX rd (if s32 x1 <? s32 x2 then 1 else 0)
      | 3 => setX rd (if x1 <? x2 then 1 else 0)
      | 4 => setX rd (Z.lxor x1 x2)
      | 5 => setX rd (Z.shiftr x1 (Z.land x2 0x1f))
      | 6 => setX rd (Z.lor x1 x2)
      | 7 => setX rd (Z.land x1 x2)
      | _ => unreachable
      end
  | 1 =>
      if SUPPORT_RV32M cfg then
        match funct3 with
        | 0 => setX rd (u32 (s32 x1 * s32 x2))
        | 1 => setX rd (u32 (Z.shiftr (u64 (s32 x1 * s32 x2)) 32))
        | 2 => setX rd (u32 (Z.shiftr (u64 (s32 x1 * x2)) 32))
        | 3 => setX rd (u32 (Z.shiftr (u64 (x1 * x2)) 32))
        | 4 => setX rd (rv_div x1 x2)
        | 5 => setX rd (rv_divu x1 x2)
        | 6 => setX rd (rv_rem x1 x2)
        | 7 => setX rd (rv_remu x1 x2)
        | _ => unreachable
        end
      else unreachable
  | 32 =>
      match funct3 with
      | 0 => setX rd (u32 (s32 x1 - s32 x2))
      | 5 => setX rd (u32 (Z.shiftr (s32 x1) (Z.land x2 0x1f)))
      | _ => unreachable
      end
  | _ => unreachable
  end ;;
  step_over ;;
  enforce_zero rd ;;
  ret true.

Definition op_lui (inst : Z) : M bool :=
  let rd  := dec_rd inst in
  let val := dec_utype_imm inst in
  setX rd val ;;
  step_over ;;
  enforce_zero rd ;;
  ret true.

Definition op_branch (inst : Z) : M bool :=
  let func3 := dec_funct3 inst in
  let imm   := dec_btype_imm inst in
  let rs1   := dec_rs1 inst in
  let rs2   := dec_rs2 inst in
  x1 <- getX rs1 ;;
  x2 <- getX rs2 ;;
  match branch_taken func3 x1 x2 with
  | None => unreachable
  | Some taken =>
      (if taken
       then (pc <- getPC ;; setPC (u32 (pc + imm)) ;; check_alignment)
       else step_over) ;;
      ret false
  end.

Definition op_jalr (inst : Z) : M bool :=
  let rd  := dec_rd inst in
  let rs1 := dec_rs1 inst in
  let imm := dec_itype_imm inst in
  pc <- getPC ;;
  let ra := u32 (pc + 4) in
  x1 <- getX rs1 ;;
  setPC (Z.land (u32 (x1 + imm)) (not32 1)) ;;
  (if negb (rd =? rv_reg_zero) then setX rd ra else ret tt) ;;
  check_alignment ;;
  ret false.

Definition op_jal (inst : Z) : M bool :=
  let rd  := dec_rd inst in
  let rel := dec_jtype_imm inst in
  pc <- getPC ;;
  let ra := u32 (pc + 4) in
  setPC (u32 (pc + rel)) ;;
  (if negb (rd =? rv_reg_zero) then setX rd ra else ret tt) ;;
  check_alignment ;;
  ret false.

(** What [csr_get_ptr] points at: a CSR of the hart, the 64-bit cycle
    counter being seen as its low and high 32-bit halves. *)
Inductive csr_ptr : Type :=
| ptr_cycle_lo | ptr_cycle_hi | ptr_mstatus | ptr_fcsr.

Definition csr_get_ptr (csr : Z) : option csr_ptr :=
  if csr =? CSR_CYCLE then Some ptr_cycle_lo
  else if csr =? CSR_CYCLEH then Some ptr_cycle_hi
  else if csr =? CSR_MSTATUS then Some ptr_mstatus
  else if SUPPORT_RV32F cfg && (csr =? CSR_FCSR) then Some ptr_fcsr
  else None.

Definition csr_is_writable (csr : Z) : bool := csr =? CSR_MSTATUS.

(** [*c] and [*c = v] for [c] a [csr_ptr]. *)
Definition csr_deref (c : csr_ptr) (rv : hart) : Z :=
  match c with
  | ptr_cycle_lo => u32 (csr_cycle rv)
  | ptr_cycle_hi => Z.shiftr (csr_cycle rv) 32
  | ptr_mstatus  => csr_mstatus rv
  | ptr_fcsr     => csr_fcsr rv
  end.

Definition csr_assign (c : csr_ptr) (v : Z) (rv : hart) : hart :=
  match c with
  | ptr_cycle_lo =>
      set_csr_cycle (Z.shiftl (Z.shiftr (csr_cycle rv) 32) 32 + v) rv
  | ptr_cycle_hi =>
      set_csr_cycle (Z.shiftl v 32 + u32 (csr_cycle rv)) rv
  | ptr_mstatus  => set_csr_mstatus v rv
  | ptr_fcsr     => set_csr_fcsr v rv
  end.

(** [csr_csrrw], [csr_csrrs] and [csr_csrrc] differ in the value they
    store: [new out val] for the old value [out]. *)
Definition csr_rmw (new : Z -> Z -> Z) (csr val : Z) : M Z :=
  match csr_get_ptr csr with
  | None => ret 0
  | Some c =>
      out <- get (csr_deref c) ;;
      (if csr_is_writable csr then modify (csr_assign c (new out val))
       else ret tt) ;;
      ret out
  end.

Definition csr_csrrw : Z -> Z -> M Z := csr_rmw (fun _ val => val).
Definition csr_csrrs : Z -> Z -> M Z := csr_rmw (fun out val => Z.lor out val).
Definition csr_csrrc : Z -> Z -> M Z :=
  csr_rmw (fun out val => Z.land out (not32 val)).

Definition op_system (inst : Z) : M bool :=
  let imm    := dec_itype_imm inst in
  let csr    := dec_csr inst in
  let funct3 := dec_funct3 inst in
  let rs1    := dec_rs1 inst in
  let rd     := dec_rd inst in
  match funct3 with
  | 0 =>
      match imm with
      | 0 => io_trap (on_ecall io) inst
      | 1 => io_trap (on_ebreak io) inst
      | _ => unreachable
      end
  | 1 => if SUPPORT_Zicsr cfg
         then v <- csr_csrrw csr rs1 ;; setX rd v else unreachable
  | 2 => if SUPPORT_Zicsr cfg
         then v <- csr_csrrs csr rs1 ;; setX rd v else unreachable
  | 3 => if SUPPORT_Zicsr cfg
         then v <- csr_csrrc csr rs1 ;; setX rd v else unreachable
  | 5 | 6 | 7 => if SUPPORT_Zicsr cfg then ret tt else unreachable
  | _ => unreachable
  end ;;
  step_over ;;
  enforce_zero rd ;;
  ret true.

(** The body every AMO case of [op_amo] has: load a word into
    [rv->X[rd]], compute [res] from [rv->X[rd]] and [rv->X[rs2]] as they
    are after that load, and store it.  Address and store callback are
    those of the source text. *)
Definition amo_case (rd rs1 rs2 : Z) (res : Z -> Z -> Z) : M unit :=
  v <- io_read (mem_read_w io) u32 rs1 ;;
  setX rd v ;;
  a <- getX rd ;;
  b <- getX rs2 ;;
  io_write (mem_write_s io) u16 rs1 (res a b).

Definition op_amo (inst : Z) : M bool :=
  let rd     := dec_rd inst in
  let rs1    := dec_rs1 inst in
  let rs2    := dec_rs2 inst in
  let f7     := dec_funct7 inst in
  let funct5 := Z.land (Z.shiftr f7 2) 0x1f in
  match funct5 with
  | 2 =>
      x1 <- getX rs1 ;;
      v <- io_read (mem_read_w io) u32 x1 ;;
      setX rd v
  | 3 =>
      x1 <- getX rs1 ;;
      x2 <- getX rs2 ;;
      io_write (mem_write_w io) u32 x1 x2 ;;
      setX rd 0
  | 1  => amo_case rd rs1 rs2 (fun _ b => b)
  | 0  => amo_case rd rs1 rs2 (fun a b => s32 a + s32 b)
  | 4  => amo_case rd rs1 rs2 (fun a b => Z.lxor a b)
  | 12 => amo_case rd rs1 rs2 (fun a b => Z.land a b)
  | 8  => amo_case rd rs1 rs2 (fun a b => Z.lor a b)
  | 16 => amo_case rd rs1 rs2 (fun a b => if s32 a <? s32 b then s32 a else s32 b)
  | 20 => amo_case rd rs1 rs2 (fun a b => if s32 a >? s32 b then s32 a else s32 b)
  | 24 => amo_case rd rs1 rs2 (fun a b => if a <? b then a else b)
  | 28 => amo_case rd rs1 rs2 (fun a b => if a >? b then a else b)
  | _ => unreachable
  end ;;
  step_over ;;
  enforce_zero rd ;;
  ret true.

Definition op_load_fp (inst : Z) : M bool :=
  let rd  := dec_rd inst in
  let rs1 := dec_rs1 inst in
  let imm := dec_itype_imm inst in
  x1 <- getX rs1 ;;
  let addr := u32 (x1 + imm) in
  data <- io_read (mem_read_w io) u32 addr ;;
  setF rd data ;;
  step_over ;;
  ret true.

Definition op_store_fp (inst : Z) : M bool :=
  let rs1 := dec_rs1 inst in
  let rs2 := dec_rs2 inst in
  let imm := dec_stype_imm inst in
  x1 <- getX rs1 ;;
  let addr := u32 (x1 + imm) in
  data <- getF rs2 ;;
  io_write (mem_write_w io) u32 addr data ;;
  step_over ;;
  ret true.

Definition op_fp (inst : Z) : M bool :=
  let rd     := dec_rd inst in
  let rs1    := dec_rs1 inst in
  let rs2    := dec_rs2 inst in
  let rm     := dec_funct3 inst in
  let funct7 := dec_funct7 inst in
  f1 <- getF rs1 ;;
  f2 <- getF rs2 ;;
  x1 <- getX rs1 ;;
  match funct7 with
  | 0  => setF rd (fp_add fp f1 f2)
  | 4  => setF rd (fp_sub fp f1 f2)
  | 8  => setF rd (fp_mul fp f1 f2)
  | 12 => setF rd (fp_div fp f1 f2)
  | 44 => setF rd (fp_sqrt fp f1)
  | 16 =>
      match rm with
      | 0 => setF rd (Z.lor (Z.land f1 (not32 FMASK_SIGN)) (Z.land f2 FMASK_SIGN))
      | 1 => setF rd (Z.lor (Z.land f1 (not32 FMASK_SIGN))
                            (Z.land (not32 f2) FMASK_SIGN))
      | 2 => setF rd (Z.lxor f1 (Z.land f2 FMASK_SIGN))
      | _ => unreachable
      end
  | 20 =>
      match rm with
      | 0 => setF rd (fp_min fp f1 f2)
      | 1 => setF rd (fp_max fp f1 f2)
      | _ => unreachable
      end
  | 96 =>
      match rs2 with
      | 0 => setX rd (u32 (fp_to_int32 fp f1))
      | 1 => setX rd (u32 (fp_to_uint32 fp f1))
      | _ => unreachable
      end
  | 112 =>
      match rm with
      | 0 => setX rd f1
      | 1 => let bits := f1 in setX rd (calc_fclass bits)
      | _ => unreachable
      end
  | 80 =>
      match rm with
      | 2 => setX rd (if fp_eq fp f1 f2 then 1 else 0)
      | 1 => setX rd (if fp_lt fp f1 f2 then 1 else 0)
      | 0 => setX rd (if fp_le fp f1 f2 then 1 else 0)
      | _ => unreachable
      end
  | 104 =>
      match rs2 with
      | 0 => setF rd (fp_of_int32 fp (s32 x1))
      | 1 => setF rd (fp_of_uint32 fp x1)
      | _ => unreachable
      end
  | 120 => setF rd x1
  | _ => unreachable
  end ;;
  step_over ;;
  ret true.

(** The four fused handlers differ in the expression stored in
    [rv->F[rd]]. *)
Definition op_fused (e : Z -> Z -> Z -> Z) (inst : Z) : M bool :=
  let rd  := dec_rd inst in
  let rs1 := dec_rs1 inst in
  let rs2 := dec_rs2 inst in
  let rs3 := dec_r4type_rs3 inst in
  f1 <- getF rs1 ;;
  f2 <- getF rs2 ;;
  f3 <- getF rs3 ;;
  setF rd (e f1 f2 f3) ;;
  step_over ;;
  ret true.

Definition op_madd : Z -> M bool :=
  op_fused (fun a b c => fp_add fp (fp_mul fp a b) c).
Definition op_msub : Z -> M bool :=
  op_fused (fun a b c => fp_sub fp (fp_mul fp a b) c).
Definition op_nmsub : Z -> M bool :=
  op_fused (fun a b c => fp_add fp (fp_neg fp (fp_mul fp a b)) c).
Definition op_nmadd : Z -> M bool :=
  op_fused (fun a b c => fp_sub fp (fp_neg fp (fp_mul fp a b)) c).

(** ** Dispatch and run loop *)

Definition opcode_t : Type := Z -> M bool.

(** A handler compiled out by its [#if] is [#define]d to [NULL]. *)
Definition NULL : option opcode_t := None.
Definition built (enabled : bool) (op : opcode_t) : option opcode_t :=
  if enabled then Some op else NULL.

Definition opcodes : list (option opcode_t) :=
  let rv32f := built (SUPPORT_RV32F cfg) in
  let rv32a := built (SUPPORT_RV32A cfg) in
  let fencei := built (SUPPORT_Zifencei cfg) in
  [ Some op_load;   rv32f op_load_fp;  NULL;           fencei op_misc_mem;
      Some op_op_imm; Some op_auipc; NULL; NULL;
    Some op_store;  rv32f op_store_fp; NULL;           rv32a op_amo;
      Some op_op;     Some op_lui;   NULL; NULL;
    rv32f op_madd;  rv32f op_msub;     rv32f op_nmsub; rv32f op_nmadd;
      rv32f op_fp;    NULL;          NULL; NULL;
    Some op_branch; Some op_jalr;      NULL;           Some op_jal;
      Some op_system; NULL;          NULL; NULL ].

(** How a call of [rv_step] ends.  [OutOfFuel] belongs to the model
    only: the loop is unrolled at most [fuel] times. *)
Inductive outcome : Type :=
| Returned (rv : hart)
| Aborted
| OutOfFuel.

(** The loop test, [rv->csr_cycle < cycles_target && !rv->exception]. *)
Definition running (cycles_target : Z) (rv : hart) : bool :=
  (csr_cycle rv <? cycles_target) && (exception rv =? 0).

(** The [while] loop of [rv_step] (the build without the JIT). *)
Fixpoint rv_step_loop (fuel : nat) (cycles_target : Z) (rv : hart) : outcome :=
  match fuel with
  | O => OutOfFuel
  | S fuel' =>
      if running cycles_target rv then
        let (inst, h) := mem_ifetch io (userdata rv) (PC rv) in
        let rv := set_userdata h rv in
        let inst := u32 inst in
        let index := Z.shiftr (Z.land inst INST_6_2) 2 in
        match nth (Z.to_nat index) opcodes NULL with
        | None => Aborted
        | Some op =>
            match op inst rv with
            | None => Aborted
            | Some (false, rv') => Returned rv'
            | Some (true, rv') =>
                rv_step_loop fuel' cycles_target
                  (set_csr_cycle (u64 (csr_cycle rv' + 1)) rv')
            end
        end
      else Returned rv
  end.

Definition rv_step (fuel : nat) (rv : hart) (cycles : Z) : outcome :=
  let cycles_target := u64 (csr_cycle rv + cycles) in
  rv_step_loop fuel cycles_target rv.

(** A computation that leaves the cycle counter as it found it, and a
    host whose trap hooks do. *)
Definition keeps_cycle {A : Type} (m : M A) : Prop :=
  forall rv a rv', m rv = Some (a, rv') -> csr_cycle rv' = csr_cycle rv.

Definition traps_keep_cycle : Prop :=
  forall rv pc inst,
    csr_cycle (on_ecall io rv pc inst) = csr_cycle rv /\
    csr_cycle (on_ebreak io rv pc inst) = csr_cycle rv.

(** ** Reset and construction *)

(** Modelled from the spec: [DEFAULT_STACK_ADDR] of the absent
    [riscv_private.h], the implementation-defined default stack top. *)
Variable DEFAULT_STACK_ADDR : Z.

Definition rv_reset (rv : hart) (pc : Z) : hart :=
  let rv := mk_riscv (fun _ => 0) (PC rv) (F rv) (csr_cycle rv)
                     (csr_mstatus rv) (csr_fcsr rv) (exception rv)
                     (userdata rv) in
  let rv := set_PC pc rv in
  let rv := set_X_cell rv_reg_sp DEFAULT_STACK_ADDR rv in
  let rv := set_exception rv_except_none rv in
  let rv := set_csr_cycle 0 rv in
  let rv := set_csr_mstatus 0 rv in
  if SUPPORT_RV32F cfg then
    let rv := mk_riscv (X rv) (PC rv) (fun _ => 0) (csr_cycle rv)
                       (csr_mstatus rv) (csr_fcsr rv) (exception rv)
                       (userdata rv) in
    set_csr_fcsr 0 rv
  else rv.

Definition rv_create (userdata : H) : hart :=
  let rv := mk_riscv (fun _ => 0) 0 (fun _ => 0) 0 0 0 0 userdata in
  rv_reset rv 0.

End Interpreter.

(** ** A host for running the interpreter on concrete programs

    The host keeps a word-addressed code store, a data store and the list
    of callbacks it has received, most recent last. *)

Module Host.

Inductive event : Type :=
| Ifetch (addr : Z)
| ReadW (addr : Z) | ReadS (addr : Z) | ReadB (addr : Z)
| WriteW (addr val : Z) | WriteS (addr val : Z) | WriteB (addr val : Z)
| Ecall (pc inst : Z) | Ebreak (pc inst : Z).

Record t : Type := mk {
  code  : Z -> Z;
  data  : Z -> Z;
  trace : list event
}.

Definition log (e : event) (h : t) : t :=
  mk (code h) (data h) (trace h ++ [e]).

Definition read (e : Z -> event) (h : t) (addr : Z) : Z * t :=
  (data h addr, log (e addr) h).

Definition write (e : Z -> Z -> event) (h : t) (addr val : Z) : t :=
  log (e addr val) (mk (code h) (upd (data h) addr val) (trace h)).

Definition trap (e : Z -> Z -> event) (rv : riscv_t t) (pc inst : Z)
  : riscv_t t :=
  set_userdata (log (e pc inst) (userdata rv)) rv.

Definition io : riscv_io_t t :=
  mk_io (fun h addr => (code h addr, log (Ifetch addr) h))
        (read ReadW) (read ReadS) (read ReadB)
        (write WriteW) (write WriteS) (write WriteB)
        (trap Ecall) (trap Ebreak).

(** Every extension compiled in. *)
Definition full : rv_config := mk_config true true true true true.

(** The examples below execute no floating-point arithmetic; the host
    arithmetic they are given is never called. *)
Definition no_fp : fp_host :=
  mk_fp (fun _ _ => 0) (fun _ _ => 0) (fun _ _ => 0) (fun _ _ => 0)
        (fun _ => 0) (fun _ => 0) (fun _ _ => 0) (fun _ _ => 0)
        (fun _ => 0) (fun _ => 0) (fun _ => 0) (fun _ => 0)
        (fun _ _ => false) (fun _ _ => false) (fun _ _ => false).

Definition stack_top : Z := 0xfffff000.

(** A host whose code store holds [inst] at every address and whose data
    store is [mem], and the hart [rv_create] and [rv_reset] make for it. *)
Definition with_code (inst : Z) (mem : Z -> Z) : t := mk (fun _ => inst) mem [].

Definition boot (inst : Z) (mem : Z -> Z) (pc : Z) : riscv_t t :=
  rv_reset full stack_top (rv_create full stack_top (with_code inst mem)) pc.

(** The instruction words and harts of the examples. *)
Definition FCLASS_S_x0_f0     : Z := 0xE0001053.
Definition BEQ_x0_x0_plus_8   : Z := 0x00000463.
Definition BEQ_x0_x0_plus_6   : Z := 0x00000363.
Definition JAL_x1_plus_16     : Z := 0x010000EF.
Definition DIV_x3_x1_x2       : Z := 0x0220C1B3.
Definition SH_x2_6_x2         : Z := 0x00211323.
Definition JALR_x1_4_x1       : Z := 0x004080E7.
Definition AMOADD_W_x3_x5_x1  : Z := 0x0050A1AF.

(** The hart a call of [rv_step] leaves behind; the hart it was given
    when the call does not return. *)
Definition after_step (fuel : nat) (rv : riscv_t t) (cycles : Z)
  : riscv_t t :=
  match rv_step io no_fp full fuel rv cycles with
  | Returned rv' => rv'
  | _ => rv
  end.

(** JAL x1, +16 at 0x2000, and the hart after [rv_step] with a budget
    of ten cycles. *)
Definition jal_hart : riscv_t t := boot JAL_x1_plus_16 (fun _ => 0) 0x2000.
Definition after_jal : riscv_t t := after_step 1 jal_hart 10.

(** [X[1] = INT32_MIN] and [X[2] = -1], the operands of the signed
    overflow. *)
Definition overflow_hart : riscv_t t :=
  set_X_cell 2 0xffffffff
    (set_X_cell 1 0x80000000 (boot 0 (fun _ => 0) 0x1000)).

(** [X[1] = 0x2001]. *)
Definition jalr_hart : riscv_t t :=
  set_X_cell 1 0x2001 (boot 0 (fun _ => 0) 0x1000).

(** [X[1] = 0x100], [X[5] = 5], and a data store that holds 0x70100 at
    address 0x100 and 0x70001 at address 1. *)
Definition amo_memory (a : Z) : Z :=
  if a =? 0x100 then 0x70100 else if a =? 1 then 0x70001 else 0.

Definition amo_hart : riscv_t t :=
  set_X_cell 5 5 (set_X_cell 1 0x100 (boot 0 amo_memory 0x1000)).

End Host.

(** ** Assertions on handlers

    [triple P m Q]: when [m] runs to completion from a hart in [P], its
    value and the hart it leaves are in [Q]. *)

Definition triple {H A : Type} (P : riscv_t H -> Prop) (m : M A)
    (Q : A -> riscv_t H -> Prop) : Prop :=
  forall rv a rv', m rv = Some (a, rv') -> P rv -> Q a rv'.

(** [m] keeps the hart in [I]. *)
Definition preserves {H A : Type} (I : riscv_t H -> Prop) (m : M A) : Prop :=
  triple I m (fun _ => I).

(** The program counter is a multiple of four. *)
Definition aligned {H : Type} (rv : riscv_t H) : Prop := Z.land (PC rv) 0x3 = 0.

(** The latch and the program counter agree: nothing is latched and the
    program counter is aligned, or instruction-misaligned is latched and
    the program counter is the misaligned target. *)
Definition latch_consistent {H : Type} (rv : riscv_t H) : Prop :=
  (exception rv = rv_except_none /\ aligned rv) \/
  (exception rv = rv_except_inst_misaligned /\ ~ aligned rv).

(** The state the run loop fetches in: nothing latched, program counter
    aligned. *)
Definition fetchable {H : Type} (rv : riscv_t H) : Prop :=
  exception rv = rv_except_none /\ aligned rv.

(** The zero register holds zero; and the same, unless [rd] is the zero
    register, which is how a handler leaves the hart between its store
    into [X[rd]] and its "enforce zero register" step. *)
Definition x0_zero {H : Type} (rv : riscv_t H) : Prop := X rv rv_reg_zero = 0.

Definition x0_zero_unless {H : Type} (rd : Z) (rv : riscv_t H) : Prop :=
  rd = rv_reg_zero \/ x0_zero rv.

(** The two CSRs no instruction may write hold [c] and [f]. *)
Definition readonly_csrs {H : Type} (c f : Z) (rv : riscv_t H) : Prop :=
  csr_cycle rv = c /\ csr_fcsr rv = f.

(** The trap hooks of the host keep the hart in [I]. *)
Definition traps_keep {H : Type} (io : riscv_io_t H) (I : riscv_t H -> Prop)
  : Prop :=
  forall rv pc inst,
    I rv -> I (on_ecall io rv pc inst) /\ I (on_ebreak io rv pc inst).

(** ** The run loop of the JIT build *)

Section JitBuild.

Context {H : Type}.
Variable io : riscv_io_t H.
Variable fp : fp_host.
Variable cfg : rv_config.

(** Modelled from the spec: [rv_step_jit], defined outside the sources at
    hand.  It is offered the hart and the cycle target, and answers
    whether it ran a block, leaving the hart as that block left it. *)
Variable rv_step_jit : riscv_t H -> Z -> bool * riscv_t H.

(** The outer [while] of [rv_step] under [RISCV_VM_X64_JIT].  Its inner
    loop is, statement for statement, the loop of the other build:
    [rv_step_loop].  A [break] of the inner loop and the end of the inner
    loop both lead back to the test of the outer one. *)
Fixpoint rv_step_jit_loop (fuel : nat) (cycles_target : Z) (rv : riscv_t H)
  : outcome :=
  match fuel with
  | O => OutOfFuel
  | S fuel' =>
      if running cycles_target rv then
        let (ran, rv1) := rv_step_jit rv cycles_target in
        if ran then rv_step_jit_loop fuel' cycles_target rv1
        else
          match rv_step_loop io fp cfg fuel' cycles_target rv1 with
          | Returned rv2 => rv_step_jit_loop fuel' cycles_target rv2
          | Aborted => Aborted
          | OutOfFuel => OutOfFuel
          end
      else Returned rv
  end.

Definition rv_step_x64_jit (fuel : nat) (rv : riscv_t H) (cycles : Z)
  : outcome :=
  let cycles_target := u64 (csr_cycle rv + cycles) in
  rv_step_jit_loop fuel cycles_target rv.

End JitBuild.


(** ** More programs for the host of the examples *)

Module Programs.

Import Host.

(** A build without the F extension, and one without the M extension. *)
Definition no_f : rv_config := mk_config true true false true true.
Definition no_m : rv_config := mk_config false true true true true.

(** A JIT that has no block for any address. *)
Definition declines (rv : riscv_t t) (cycles_target : Z)
  : bool * riscv_t t :=
  (false, rv).

(** The hart a handler leaves behind; the hart it was given when the
    handler asserts. *)
Definition after (m : @M t bool) (rv : riscv_t t) : riscv_t t :=
  match m rv with
  | Some (_, rv') => rv'
  | None => rv
  end.

(** The instruction words of the programs. *)
Definition ADDI_x0_x0_7       : Z := 0x00700013.
Definition ADDI_x1_x1_1       : Z := 0x00108093.
Definition SRAI_x3_x1_4       : Z := 0x4040D193.
Definition ADD_x3_x1_x2       : Z := 0x002081B3.
Definition SRA_x3_x1_x2       : Z := 0x4020D1B3.
Definition MUL_x3_x1_x2       : Z := 0x022081B3.
Definition MULH_x4_x1_x2      : Z := 0x02209233.
Definition REM_x4_x1_x2       : Z := 0x0220E233.
Definition LB_x3_0_x1         : Z := 0x00008183.
Definition JAL_x0_0           : Z := 0x0000006F.
Definition ECALL              : Z := 0x00000073.
Definition CSRRW_x1_cycle_x2  : Z := 0xC00110F3.
Definition CSRRS_x1_mstatus_x5 : Z := 0x3002A0F3.
Definition LR_W_x3_x1         : Z := 0x1000A1AF.
Definition SC_W_x3_x5_x1      : Z := 0x1850A1AF.
Definition FADD_S_f0_f0_f0    : Z := 0x00000053.
Definition FMV_W_X_f1_x1      : Z := 0xF00080D3.
Definition FMV_X_W_x3_f1      : Z := 0xE00081D3.
Definition FSGNJN_S_f2_f1_f1  : Z := 0x20109153.
Definition CUSTOM_0           : Z := 0x0000000B.
Definition SD_x0_0_x0         : Z := 0x00003023.
Definition CSRRWI_x1_mstatus_5 : Z := 0x3002D0F3.

(** A code store full of [inst], the hart reset to 0x1000. *)
Definition at_0x1000 (inst : Z) : riscv_t t := boot inst (fun _ => 0) 0x1000.

(** The hart after the misaligned branch, its exception latched. *)
Definition misaligned_hart : riscv_t t :=
  after_step 1 (at_0x1000 BEQ_x0_x0_plus_6) 1.

(** [X[1] = 0x100] and a data store with the byte 0x80 at 0x100. *)
Definition byte_memory (a : Z) : Z := if a =? 0x100 then 0x80 else 0.

Definition byte_hart : riscv_t t :=
  set_X_cell 1 0x100 (boot 0 byte_memory 0x1000).

(** [X[1] = 0x80000010]. *)
Definition negative_hart : riscv_t t :=
  set_X_cell 1 0x80000010 (at_0x1000 0).

(** [F[1]] holds 1.0f and [X[1]] a pattern of its own. *)
Definition float_hart : riscv_t t :=
  set_F_cell 1 0x3f800000 (set_X_cell 1 0x12345678 (at_0x1000 0)).

End Programs.

(** * Properties *)

(** ** Conversions between the signed and unsigned views *)

Lemma u32_range z : 0 <= u32 z < 2 ^ 32.
Proof. unfold u32. apply Z.mod_pos_bound. reflexivity. Qed.

Lemma u32_small z : is_u32 z -> u32 z = z.
Proof. unfold is_u32, u32. intros R. apply Z.mod_small. exact R. Qed.

Lemma s32_range z : - 2 ^ 31 <= s32 z < 2 ^ 31.
Proof.
  unfold s32.
  assert (0 <= (z + 2 ^ 31) mod 2 ^ 32 < 2 ^ 32)
    by (apply Z.mod_pos_bound; reflexivity).
  lia.
Qed.

Lemma s32_small z : - 2 ^ 31 <= z < 2 ^ 31 -> s32 z = z.
Proof. unfold s32. intros R. rewrite Z.mod_small; lia. Qed.

Lemma s32_u32 z : s32 (u32 z) = s32 z.
Proof.
  unfold s32, u32. f_equal.
  rewrite Zplus_mod_idemp_l. reflexivity.
Qed.

Lemma u32_s32 z : u32 (s32 z) = u32 z.
Proof.
  unfold s32, u32.
  rewrite Zminus_mod_idemp_l. f_equal. lia.
Qed.

Lemma s32_cases z :
  is_u32 z ->
  (z < 2 ^ 31 /\ s32 z = z) \/ (2 ^ 31 <= z /\ s32 z = z - 2 ^ 32).
Proof.
  unfold is_u32, s32. intros R.
  destruct (Z_lt_le_dec z (2 ^ 31)) as [L | G]; [left | right]; split; trivial.
  - rewrite Z.mod_small; lia.
  - replace (z + 2 ^ 31) with (z - 2 ^ 31 + 1 * 2 ^ 32) by lia.
    rewrite Z_mod_plus_full. rewrite Z.mod_small; lia.
Qed.

Lemma s32_zero_iff z : is_u32 z -> (s32 z = 0 <-> z = 0).
Proof.
  intros R. destruct (s32_cases z R) as [[? E] | [? E]]; rewrite E;
    unfold is_u32 in R; lia.
Qed.

Lemma s32_minus_one_iff z : is_u32 z -> (s32 z = -1 <-> z = 0xffffffff).
Proof.
  intros R. destruct (s32_cases z R) as [[? E] | [? E]]; rewrite E;
    unfold is_u32 in R; lia.
Qed.

(** ** Truncating division

    [Z.quot] and [Z.rem] round toward zero; a quotient of two [int32_t]
    values fits an [int32_t] except for [INT32_MIN / -1]. *)

Lemma quot_int32_range a b :
  - 2 ^ 31 <= a < 2 ^ 31 -> - 2 ^ 31 <= b < 2 ^ 31 ->
  b <> 0 -> ~ (a = - 2 ^ 31 /\ b = -1) ->
  - 2 ^ 31 <= Z.quot a b < 2 ^ 31.
Proof.
  intros Ra Rb Nz Nov.
  assert (Hq : Z.abs (Z.quot a b) <= Z.abs a).
  { rewrite <- Z.quot_abs by assumption.
    apply Z.quot_le_upper_bound; [lia|].
    assert (0 <= Z.abs a) by apply Z.abs_nonneg. nia. }
  destruct (Z.eq_dec a (- 2 ^ 31)) as [Ea | Na]; [|lia].
  subst a.
  destruct (Z.eq_dec b 1) as [-> | N1]; [rewrite Z.quot_1_r; lia|].
  assert (Hb : 2 <= Z.abs b) by lia.
  assert (Z.abs (Z.quot (- 2 ^ 31) b) <= 2 ^ 30).
  { rewrite <- Z.quot_abs by assumption.
    apply Z.quot_le_upper_bound; [lia|].
    change (Z.abs (- 2 ^ 31)) with (2 * 2 ^ 30). nia. }
  lia.
Qed.

Lemma rem_int32_range a b :
  - 2 ^ 31 <= b < 2 ^ 31 -> b <> 0 -> - 2 ^ 31 <= Z.rem a b < 2 ^ 31.
Proof.
  intros Rb Nz. pose proof (Z.rem_bound_abs a b Nz). lia.
Qed.

Lemma quot_rem_truncating a b :
  b <> 0 ->
  a = b * Z.quot a b + Z.rem a b /\
  Z.abs (Z.rem a b) < Z.abs b /\
  0 <= Z.rem a b * a.
Proof.
  intros Nz. split; [apply Z.quot_rem'|].
  split; [apply Z.rem_bound_abs | apply Z.rem_sign_mul]; assumption.
Qed.

(** ** The division blocks of [op_op] *)

Lemma rv_div_by_zero a : rv_div a 0 = 0xffffffff.
Proof. reflexivity. Qed.

Lemma rv_div_overflow : rv_div 0x80000000 0xffffffff = 0x80000000.
Proof. reflexivity. Qed.

Lemma rv_div_regular a b :
  is_u32 a -> is_u32 b -> b <> 0 -> ~ (a = 0x80000000 /\ b = 0xffffffff) ->
  rv_div a b = u32 (Z.quot (s32 a) (s32 b)) /\
  s32 (rv_div a b) = Z.quot (s32 a) (s32 b).
Proof.
  intros Ra Rb Nz Nov. unfold rv_div.
  destruct (Z.eqb_spec (s32 b) 0) as [E | _];
    [apply (s32_zero_iff b Rb) in E; contradiction|].
  assert (G : (s32 b =? -1) && (a =? 0x80000000) = false).
  { apply andb_false_iff.
    destruct (Z.eqb_spec (s32 b) (-1)) as [E | _]; [right | now left].
    apply (s32_minus_one_iff b Rb) in E.
    apply Z.eqb_neq. intros ->. apply Nov. now split. }
  rewrite G. split; [reflexivity|].
  rewrite s32_u32. apply s32_small.
  apply quot_int32_range; try apply s32_range.
  - rewrite (s32_zero_iff b Rb). assumption.
  - intros [Ea Eb]. apply Nov.
    apply (s32_minus_one_iff b Rb) in Eb. split; [|assumption].
    destruct (s32_cases a Ra) as [[? E] | [? E]]; rewrite E in Ea;
      unfold is_u32 in Ra; lia.
Qed.

Lemma rv_divu_by_zero a : rv_divu a 0 = 0xffffffff.
Proof. reflexivity. Qed.

Lemma rv_divu_regular a b :
  is_u32 a -> is_u32 b -> b <> 0 -> rv_divu a b = a / b.
Proof.
  unfold is_u32, rv_divu. intros Ra Rb Nz.
  destruct (Z.eqb_spec b 0) as [E | _]; [contradiction|].
  rewrite Z.quot_div_nonneg by lia.
  apply u32_small. unfold is_u32. split.
  - apply Z.div_pos; lia.
  - apply Z.le_lt_trans with a; [|lia].
    apply Z.div_le_upper_bound; nia.
Qed.

Lemma rv_rem_by_zero a : is_u32 a -> rv_rem a 0 = a.
Proof.
  intros Ra. unfold rv_rem. change (s32 0 =? 0) with true. cbv iota.
  rewrite u32_s32. apply u32_small. assumption.
Qed.

Lemma rv_rem_overflow : rv_rem 0x80000000 0xffffffff = 0.
Proof. reflexivity. Qed.

Lemma rv_rem_regular a b :
  is_u32 a -> is_u32 b -> b <> 0 -> ~ (a = 0x80000000 /\ b = 0xffffffff) ->
  rv_rem a b = u32 (Z.rem (s32 a) (s32 b)) /\
  s32 (rv_rem a b) = Z.rem (s32 a) (s32 b).
Proof.
  intros Ra Rb Nz Nov. unfold rv_rem.
  destruct (Z.eqb_spec (s32 b) 0) as [E | Nz'];
    [apply (s32_zero_iff b Rb) in E; contradiction|].
  assert (G : (s32 b =? -1) && (a =? 0x80000000) = false).
  { apply andb_false_iff.
    destruct (Z.eqb_spec (s32 b) (-1)) as [E | _]; [right | now left].
    apply (s32_minus_one_iff b Rb) in E.
    apply Z.eqb_neq. intros ->. apply Nov. now split. }
  rewrite G. split; [reflexivity|].
  rewrite s32_u32. apply s32_small.
  apply rem_int32_range; [apply s32_range | assumption].
Qed.

Lemma rv_remu_by_zero a : rv_remu a 0 = a.
Proof. reflexivity. Qed.

Lemma rv_remu_regular a b :
  is_u32 a -> is_u32 b -> b <> 0 -> rv_remu a b = a mod b.
Proof.
  unfold is_u32, rv_remu. intros Ra Rb Nz.
  destruct (Z.eqb_spec b 0) as [E | _]; [contradiction|].
  rewrite Z.rem_mod_nonneg by lia.
  apply u32_small. unfold is_u32.
  pose proof (Z.mod_pos_bound a b). lia.
Qed.

(** ** Register file updates *)

Lemma upd_same a i v : upd a i v i = v.
Proof. unfold upd. rewrite Z.eqb_refl. reflexivity. Qed.

Lemma upd_other a i v j : j <> i -> upd a i v j = a j.
Proof. unfold upd. intros N. apply Z.eqb_neq in N. rewrite N. reflexivity. Qed.

(** ** The integer handlers *)

(** Unfold the sequencing of a handler down to the hart it returns. *)
Ltac run_handler :=
  cbv beta iota delta
    [bind ret get modify unreachable getX setX getF setF getPC setPC
     io_read io_write io_trap raise_exception step_over enforce_zero
     check_alignment set_X_cell set_F_cell set_PC set_exception
     set_userdata].

(** Read a field of a hart that is written out. *)
Ltac read_fields :=
  cbn [X PC F csr_cycle csr_mstatus csr_fcsr exception userdata].

Section HandlerProperties.

Context {H : Type}.
Variable io : riscv_io_t H.
Variable cfg : rv_config.

Implicit Types (rv : riscv_t H) (inst : Z).

(** What is left of a handler once its switch has run: [rv->PC += 4],
    "enforce zero register", [return true]. *)
Lemma closing_steps_zero (body : M unit) rd rv b rv' :
  rd = rv_reg_zero ->
  bind body (fun _ => bind step_over (fun _ =>
    bind (enforce_zero rd) (fun _ => ret true))) rv = Some (b, rv') ->
  X rv' rv_reg_zero = 0.
Proof.
  intros -> E. revert E. run_handler.
  destruct (body rv) as [[[] rv1] |]; [|discriminate].
  change (rv_reg_zero =? rv_reg_zero) with true. cbv iota.
  intros E. injection E as _ <-. reflexivity.
Qed.

(** Every integer handler that stores into [rv->X[rd]] ends with the
    "enforce zero register" step. *)
Lemma integer_handlers_keep_x0 inst rv b rv' :
  dec_rd inst = rv_reg_zero ->
  op_load io inst rv = Some (b, rv') \/
  op_op_imm inst rv = Some (b, rv') \/
  op_auipc inst rv = Some (b, rv') \/
  op_op cfg inst rv = Some (b, rv') \/
  op_lui inst rv = Some (b, rv') \/
  op_system io cfg inst rv = Some (b, rv') \/
  op_amo io inst rv = Some (b, rv') ->
  X rv' rv_reg_zero = 0.
Proof.
  intros Hrd E.
  destruct E as [E | [E | [E | [E | [E | [E | E]]]]]];
    revert E;
    [ unfold op_load | unfold op_op_imm | unfold op_auipc | unfold op_op
    | unfold op_lui | unfold op_system | unfold op_amo ];
    cbv beta iota zeta delta [getX getPC get];
    repeat match goal with
           | |- context [bind (fun rv0 => Some (?f rv0, rv0)) ?k] =>
               change (bind (fun rv0 => Some (f rv0, rv0)) k rv)
                 with (k (f rv) rv)
           end;
    cbv beta; intros E; eapply closing_steps_zero; eassumption.
Qed.

(** [op_jal] and [op_jalr] store the link only when [rd] is not x0. *)
Lemma jumps_keep_x0 inst rv b rv' :
  dec_rd inst = rv_reg_zero ->
  op_jal inst rv = Some (b, rv') \/ op_jalr inst rv = Some (b, rv') ->
  X rv' = X rv.
Proof.
  intros Hrd [E | E]; revert E; [unfold op_jal | unfold op_jalr];
    run_handler; rewrite Hrd; change (rv_reg_zero =? rv_reg_zero) with true;
    cbv beta iota zeta delta [negb PC set_PC];
    match goal with
    | |- context [Z.land ?pc 3 =? 0] => destruct (Z.land pc 3 =? 0)
    end; intros E; injection E as _ <-; reflexivity.
Qed.

(** The RV32M division cases of [op_op] store the value of their block
    into [rv->X[rd]] and step over the instruction. *)
Lemma op_op_division inst rv :
  SUPPORT_RV32M cfg = true ->
  dec_funct7 inst = 1 ->
  dec_rd inst <> rv_reg_zero ->
  In (dec_funct3 inst) [4; 5; 6; 7] ->
  exists rv',
    op_op cfg inst rv = Some (true, rv') /\
    PC rv' = u32 (PC rv + 4) /\
    X rv' (dec_rd inst) =
      (match dec_funct3 inst with
       | 4 => rv_div | 5 => rv_divu | 6 => rv_rem | _ => rv_remu
       end) (X rv (dec_rs1 inst)) (X rv (dec_rs2 inst)).
Proof.
  intros HM Hf7 Hrd Hf3. apply Z.eqb_neq in Hrd.
  unfold op_op. run_handler. rewrite Hf7, HM, Hrd.
  destruct Hf3 as [E | [E | [E | [E | []]]]]; rewrite <- E; cbv beta iota;
    eexists; (split; [reflexivity|]); (split; [reflexivity|]);
    read_fields; unfold upd; rewrite Z.eqb_refl; reflexivity.
Qed.

(** C6: the RV32M division and remainder results.  DIV and DIVU by zero
    give 0xFFFFFFFF, REM and REMU by zero give the dividend, the signed
    overflow case gives 0x80000000 for DIV and 0 for REM, and everywhere
    else the quotient is truncated toward zero and the remainder has the
    sign of the dividend. *)
Theorem op_op_division_edge_cases inst rv :
  SUPPORT_RV32M cfg = true ->
  dec_funct7 inst = 1 ->
  dec_rd inst <> rv_reg_zero ->
  is_u32 (X rv (dec_rs1 inst)) ->
  is_u32 (X rv (dec_rs2 inst)) ->
  let a := X rv (dec_rs1 inst) in
  let b := X rv (dec_rs2 inst) in
  let overflow := a = 0x80000000 /\ b = 0xffffffff in
  (dec_funct3 inst = 4 ->
   exists rv', op_op cfg inst rv = Some (true, rv') /\
     let q := X rv' (dec_rd inst) in
     (b = 0 -> q = 0xffffffff) /\
     (overflow -> q = 0x80000000) /\
     (b <> 0 -> ~ overflow ->
      s32 q = Z.quot (s32 a) (s32 b) /\
      exists r, s32 a = s32 b * s32 q + r /\
                Z.abs r < Z.abs (s32 b) /\ 0 <= r * s32 a)) /\
  (dec_funct3 inst = 5 ->
   exists rv', op_op cfg inst rv = Some (true, rv') /\
     let q := X rv' (dec_rd inst) in
     (b = 0 -> q = 0xffffffff) /\
     (b <> 0 -> q = a / b)) /\
  (dec_funct3 inst = 6 ->
   exists rv', op_op cfg inst rv = Some (true, rv') /\
     let r := X rv' (dec_rd inst) in
     (b = 0 -> r = a) /\
     (overflow -> r = 0) /\
     (b <> 0 -> ~ overflow ->
      s32 r = Z.rem (s32 a) (s32 b) /\
      exists q, s32 a = s32 b * q + s32 r /\
                Z.abs (s32 r) < Z.abs (s32 b) /\ 0 <= s32 r * s32 a)) /\
  (dec_funct3 inst = 7 ->
   exists rv', op_op cfg inst rv = Some (true, rv') /\
     let r := X rv' (dec_rd inst) in
     (b = 0 -> r = a) /\
     (b <> 0 -> r = a mod b)).
Proof.
  intros HM Hf7 Hrd Ra Rb a b overflow.
  assert (Nz : b <> 0 -> s32 b <> 0)
    by (intros N E; apply (s32_zero_iff b Rb) in E; contradiction).
  repeat split; intros Hf3;
    destruct (op_op_division inst rv HM Hf7 Hrd) as (rv' & E & _ & Hx);
    try (rewrite Hf3; simpl; tauto);
    rewrite Hf3 in Hx; fold a b in Hx; exists rv'; (split; [exact E|]);
    cbv zeta; rewrite Hx.
  - split; [intros ->; apply rv_div_by_zero|].
    split; [intros [-> ->]; apply rv_div_overflow|].
    intros Nb Nov.
    destruct (rv_div_regular a b Ra Rb Nb Nov) as [_ Es]. rewrite Es.
    split; [reflexivity|]. exists (Z.rem (s32 a) (s32 b)).
    apply quot_rem_truncating. auto.
  - split; [intros ->; apply rv_divu_by_zero|].
    intros Nb. apply rv_divu_regular; assumption.
  - split; [intros ->; apply rv_rem_by_zero; assumption|].
    split; [intros [-> ->]; apply rv_rem_overflow|].
    intros Nb Nov.
    destruct (rv_rem_regular a b Ra Rb Nb Nov) as [_ Es]. rewrite Es.
    split; [reflexivity|]. exists (Z.quot (s32 a) (s32 b)).
    apply quot_rem_truncating. auto.
  - split; [intros ->; apply rv_remu_by_zero|].
    intros Nb. apply rv_remu_regular; assumption.
Qed.

(** C7: a taken branch whose target has one of its low two bits set
    latches instruction-misaligned; a branch that is not taken steps over
    the instruction and leaves the latch as it was. *)
Theorem op_branch_misalignment inst rv taken :
  branch_taken (dec_funct3 inst) (X rv (dec_rs1 inst)) (X rv (dec_rs2 inst))
    = Some taken ->
  exists rv',
    op_branch inst rv = Some (false, rv') /\
    (taken = true ->
     PC rv' = u32 (PC rv + dec_btype_imm inst) /\
     (Z.land (PC rv') 0x3 <> 0 ->
      exception rv' = rv_except_inst_misaligned) /\
     (Z.land (PC rv') 0x3 = 0 -> exception rv' = exception rv)) /\
    (taken = false ->
     PC rv' = u32 (PC rv + 4) /\ exception rv' = exception rv).
Proof.
  intros Ht. unfold op_branch. run_handler. rewrite Ht.
  destruct taken; cbv beta iota.
  - read_fields.
    destruct (Z.eqb_spec (Z.land (u32 (PC rv + dec_btype_imm inst)) 3) 0)
      as [A | A]; cbv beta iota delta [negb];
      eexists; (split; [reflexivity|]); (split; [|discriminate]);
      intros _; read_fields;
      (split; [reflexivity|]); split; intros; congruence.
  - eexists. split; [reflexivity|]. split; [discriminate|].
    intros _. split; reflexivity.
Qed.

(** C9: JALR with [rd = rs1] jumps to the address made from the value
    [X[rs1]] had before the instruction, and then stores the link. *)
Theorem op_jalr_target_from_old_rs1 inst rv :
  dec_rd inst = dec_rs1 inst ->
  exists rv',
    op_jalr inst rv = Some (false, rv') /\
    PC rv' =
      Z.land (u32 (X rv (dec_rs1 inst) + dec_itype_imm inst)) 0xfffffffe /\
    (dec_rd inst <> rv_reg_zero -> X rv' (dec_rd inst) = u32 (PC rv + 4)).
Proof.
  intros Hrd. unfold op_jalr. run_handler.
  change (not32 1) with 0xfffffffe.
  destruct (Z.eqb_spec (dec_rd inst) rv_reg_zero) as [Z0 | NZ];
    cbv beta iota delta [negb]; read_fields;
    match goal with
    | |- context [Z.land ?pc 3 =? 0] => destruct (Z.land pc 3 =? 0)
    end; cbv beta iota;
    eexists; (split; [reflexivity|]); (split; [reflexivity|]);
    intros N; try contradiction;
    read_fields; unfold upd; rewrite Z.eqb_refl; reflexivity.
Qed.

(** C10: a store touches nothing of the hart but [PC], which it advances
    by 4, and calls the host once, through the write callback of the
    width [funct3] selects. *)
Theorem op_store_frame inst rv :
  In (dec_funct3 inst) [0; 1; 2] ->
  let addr := u32 (X rv (dec_rs1 inst) + dec_stype_imm inst) in
  let data := X rv (dec_rs2 inst) in
  exists rv',
    op_store io inst rv = Some (true, rv') /\
    X rv' = X rv /\
    F rv' = F rv /\
    csr_cycle rv' = csr_cycle rv /\
    csr_mstatus rv' = csr_mstatus rv /\
    csr_fcsr rv' = csr_fcsr rv /\
    exception rv' = exception rv /\
    PC rv' = u32 (PC rv + 4) /\
    userdata rv' =
      match dec_funct3 inst with
      | 0 => mem_write_b io (userdata rv) addr (u8 data)
      | 1 => mem_write_s io (userdata rv) addr (u16 data)
      | _ => mem_write_w io (userdata rv) addr (u32 data)
      end.
Proof.
  intros Hf3 addr data. unfold op_store. run_handler.
  destruct Hf3 as [E | [E | [E | []]]]; rewrite <- E; cbv beta iota;
    eexists; (split; [reflexivity|]); repeat split.
Qed.

End HandlerProperties.

(** C8: after [rv_reset] the program counter is the address given, every
    integer register is zero except the stack pointer, which holds the
    default stack top, the cycle counter is zero and no exception is
    latched. *)
Theorem rv_reset_postcondition {H : Type} (cfg : rv_config) (stack_top : Z)
    (rv : riscv_t H) (p : Z) :
  let rv' := rv_reset cfg stack_top rv p in
  PC rv' = p /\
  (forall i, X rv' i = if i =? rv_reg_sp then stack_top else 0) /\
  csr_cycle rv' = 0 /\
  csr_mstatus rv' = 0 /\
  exception rv' = rv_except_none.
Proof.
  unfold rv_reset. destruct (SUPPORT_RV32F cfg); repeat split.
Qed.

(** ** Classification of single-precision values *)

Section Fclass.

Implicit Type f : Z.

(** The exponent field of the three values [calc_fclass] compares [f]
    with as a whole. *)
Lemma fclass_whole_values f :
  Z.land f FMASK_EXPN <> 0 ->
  Z.land f FMASK_EXPN <> FMASK_EXPN ->
  (f =? 0xff800000) = false /\ (f =? 0x80000000) = false /\
  (f =? 0x00000000) = false /\ (f =? 0x7f800000) = false.
Proof.
  intros N0 N1.
  repeat split; apply Z.eqb_neq; intros ->;
    (apply N0; reflexivity) || (apply N1; reflexivity).
Qed.

(** A value whose exponent field is between 0xF0 and 0xFE, the top
    sixteenth of the normal range, is put in no class at all: the two
    tests for normal numbers compare with 0x78000000, not with
    [FMASK_EXPN]. *)
Lemma calc_fclass_large_normal f :
  0x78000000 <= Z.land f FMASK_EXPN < FMASK_EXPN ->
  calc_fclass f = 0.
Proof.
  intros [Lo Hi].
  destruct (fclass_whole_values f) as (E1 & E2 & E3 & E4);
    [lia | lia |].
  unfold calc_fclass. rewrite E1, E2, E3, E4.
  replace (Z.land f FMASK_EXPN <? 0x78000000) with false
    by (symmetry; apply Z.ltb_ge; exact Lo).
  replace (Z.land f FMASK_EXPN =? 0) with false
    by (symmetry; apply Z.eqb_neq; lia).
  replace (Z.land f FMASK_EXPN =? FMASK_EXPN) with false
    by (symmetry; apply Z.eqb_neq; lia).
  cbn [negb andb]. rewrite ?andb_false_r. reflexivity.
Qed.

(** A NaN (exponent field all ones, fraction not zero) gets one of the
    two NaN bits and none of the bits of the finite classes. *)
Lemma calc_fclass_nan f :
  Z.land f FMASK_EXPN = FMASK_EXPN ->
  Z.land f FMASK_FRAC <> 0 ->
  calc_fclass f = 0x100 \/ calc_fclass f = 0x200.
Proof.
  intros He Hf.
  assert (E1 : (f =? 0xff800000) = false)
    by (apply Z.eqb_neq; intros ->; apply Hf; reflexivity).
  assert (E2 : (f =? 0x80000000) = false)
    by (apply Z.eqb_neq; intros ->; discriminate He).
  assert (E3 : (f =? 0x00000000) = false)
    by (apply Z.eqb_neq; intros ->; discriminate He).
  assert (E4 : (f =? 0x7f800000) = false)
    by (apply Z.eqb_neq; intros ->; apply Hf; reflexivity).
  unfold calc_fclass. rewrite E1, E2, E3, E4, He.
  replace (Z.land f FMASK_FRAC =? 0) with false
    by (symmetry; apply Z.eqb_neq; exact Hf).
  change (FMASK_EXPN <? 0x78000000) with false.
  change (FMASK_EXPN =? 0) with false.
  change (FMASK_EXPN =? FMASK_EXPN) with true.
  cbn [negb andb]. rewrite ?andb_false_r. cbn [Z.lor].
  destruct (Z.leb_spec (Z.land f FMASK_FRAC) 0x7ff) as [L | G].
  - replace (Z.land f FMASK_FRAC >=? 0x800) with false
      by (symmetry; rewrite Z.geb_leb; apply Z.leb_gt; lia).
    left. reflexivity.
  - replace (Z.land f FMASK_FRAC >=? 0x800) with true
      by (symmetry; rewrite Z.geb_leb; apply Z.leb_le; lia).
    right. reflexivity.
Qed.

(** A mask of [n] ones at bit [k] picks the field [(f / 2^k) mod 2^n]
    and leaves it in place. *)
Lemma land_field f k n :
  0 <= k -> 0 <= n ->
  Z.land f (Z.shiftl (Z.ones n) k) = (f / 2 ^ k) mod 2 ^ n * 2 ^ k.
Proof.
  intros Hk Hn.
  rewrite <- Z.land_ones, <- Z.shiftr_div_pow2, <- Z.shiftl_mul_pow2
    by assumption.
  rewrite Z.shiftl_land, <- Z.ldiff_ones_r by assumption.
  apply Z.bits_inj'. intros i Hi.
  rewrite !Z.land_spec, Z.ldiff_spec.
  destruct (Z.testbit (Z.shiftl (Z.ones n) k) i) eqn:E;
    rewrite ?andb_false_r; [|reflexivity].
  rewrite !andb_true_r.
  destruct (Z_lt_le_dec i k) as [L | G].
  - rewrite Z.shiftl_spec_low in E by assumption. discriminate.
  - rewrite Z.ones_spec_high by lia. rewrite andb_true_r. reflexivity.
Qed.

(** The sign [s], exponent [e] and fraction [m] of a 32-bit pattern, as
    [calc_fclass] and [fclass_spec] extract them. *)
Lemma float_fields f :
  is_u32 f ->
  exists s e m,
    0 <= s < 2 /\ 0 <= e < 256 /\ 0 <= m < 2 ^ 23 /\
    f = s * 2 ^ 31 + e * 2 ^ 23 + m /\
    Z.land f FMASK_SIGN = s * 2 ^ 31 /\
    Z.land f FMASK_EXPN = e * 2 ^ 23 /\
    Z.land f FMASK_FRAC = m /\
    Z.land (Z.shiftr f 23) 0xff = e /\
    Z.testbit f 31 = (s =? 1) /\
    Z.testbit f 22 = (2 ^ 22 <=? m).
Proof.
  unfold is_u32. intros R.
  exists ((f / 2 ^ 31) mod 2 ^ 1), ((f / 2 ^ 23) mod 2 ^ 8), (f mod 2 ^ 23).
  assert (B31 : Z.testbit f 31 = ((f / 2 ^ 31) mod 2 ^ 1 =? 1))
    by (apply Z.testbit_eqb; lia).
  assert (B22 : Z.testbit f 22 = (2 ^ 22 <=? f mod 2 ^ 23)).
  { rewrite Z.testbit_eqb by lia.
    destruct (Z.eqb_spec ((f / 2 ^ 22) mod 2) 1) as [E | E];
      destruct (Z.leb_spec (2 ^ 22) (f mod 2 ^ 23)) as [L | L];
      try reflexivity; exfalso; revert E L;
      Z.to_euclidean_division_equations; lia. }
  change FMASK_SIGN with (Z.shiftl (Z.ones 1) 31).
  change FMASK_EXPN with (Z.shiftl (Z.ones 8) 23).
  change FMASK_FRAC with (Z.ones 23).
  change 0xff with (Z.ones 8).
  rewrite !land_field, !Z.land_ones, Z.shiftr_div_pow2 by lia.
  repeat split; trivial;
    try (apply Z.mod_pos_bound; lia);
    Z.to_euclidean_division_equations; lia.
Qed.

(** Settle a comparison of the goal from the hypotheses. *)
Ltac decide_test :=
  match goal with
  | |- context [?a =? ?b] =>
      first [ replace (a =? b) with true by (symmetry; apply Z.eqb_eq; lia)
            | replace (a =? b) with false by (symmetry; apply Z.eqb_neq; lia) ]
  | |- context [?a <? ?b] =>
      first [ replace (a <? b) with true by (symmetry; apply Z.ltb_lt; lia)
            | replace (a <? b) with false by (symmetry; apply Z.ltb_ge; lia) ]
  | |- context [?a <=? ?b] =>
      first [ replace (a <=? b) with true by (symmetry; apply Z.leb_le; lia)
            | replace (a <=? b) with false by (symmetry; apply Z.leb_gt; lia) ]
  end.

(** Where [calc_fclass] and the reference part: on the normal numbers
    whose exponent field is 0xF0 or more, which get no class, and on the
    NaNs with a fraction from 0x800 up to the quiet bit, which are
    signaling and reported as quiet.  Everywhere else they agree. *)
Lemma calc_fclass_vs_spec f :
  is_u32 f ->
  let e := Z.land (Z.shiftr f 23) 0xff in
  let m := Z.land f FMASK_FRAC in
  calc_fclass f =
    if (0xf0 <=? e) && (e <? 0xff) then 0
    else if (e =? 0xff) && (0x800 <=? m) && (m <? 0x400000) then 0x200
    else fclass_spec f.
Proof.
  intros R.
  destruct (float_fields f R)
    as (s & e & m & Rs & Re & Rm & Ef & Es & Ee & Em & Ee' & Bs & Bq).
  unfold calc_fclass, fclass_spec.
  change 0x7fffff with FMASK_FRAC.
  rewrite Es, Ee, Em, Ee', Bs, Bq. cbv zeta. rewrite !Z.geb_leb.
  unfold FMASK_EXPN.
  assert (Cs : s = 0 \/ s = 1) by lia.
  assert (Ce : e = 0 \/ 0 < e < 0xf0 \/ 0xf0 <= e < 0xff \/ e = 0xff) by lia.
  assert (Cm : m = 0 \/ 0 < m < 0x800 \/
               0x800 <= m < 0x400000 \/ 0x400000 <= m) by lia.
  destruct Cs as [Cs | Cs], Ce as [Ce | [Ce | [Ce | Ce]]],
    Cm as [Cm | [Cm | [Cm | Cm]]];
    repeat decide_test; reflexivity.
Qed.

(** The reference never answers 0: it always sets one bit. *)
Lemma fclass_spec_one_bit f :
  In (fclass_spec f)
     [0x001; 0x002; 0x004; 0x008; 0x010; 0x020; 0x040; 0x080; 0x100; 0x200].
Proof.
  unfold fclass_spec.
  destruct (Z.land (Z.shiftr f 23) 0xff =? 0xff),
    (Z.land (Z.shiftr f 23) 0xff =? 0), (Z.land f 0x7fffff =? 0),
    (Z.testbit f 31), (Z.testbit f 22); cbn [In]; tauto.
Qed.

End Fclass.

(** ** The run loop *)

Section RunLoop.

Context {H : Type}.
Variable io : riscv_io_t H.
Variable fp : fp_host.
Variable cfg : rv_config.

Implicit Types (rv : riscv_t H) (inst : Z).

Lemma rv_step_loop_done fuel cycles_target rv :
  running cycles_target rv = false ->
  rv_step_loop io fp cfg (S fuel) cycles_target rv = Returned rv.
Proof. intros E. cbn [rv_step_loop]. rewrite E. reflexivity. Qed.

(** One turn of the loop, by what the handler returns. *)
Lemma rv_step_loop_turn fuel cycles_target rv inst h op :
  running cycles_target rv = true ->
  mem_ifetch io (userdata rv) (PC rv) = (inst, h) ->
  nth (Z.to_nat (Z.shiftr (Z.land (u32 inst) INST_6_2) 2))
      (opcodes io fp cfg) NULL = Some op ->
  rv_step_loop io fp cfg (S fuel) cycles_target rv =
    match op (u32 inst) (set_userdata h rv) with
    | None => Aborted
    | Some (false, rv') => Returned rv'
    | Some (true, rv') =>
        rv_step_loop io fp cfg fuel cycles_target
          (set_csr_cycle (u64 (csr_cycle rv' + 1)) rv')
    end.
Proof.
  intros E Ef Eo. cbn [rv_step_loop].
  rewrite E, Ef, Eo. reflexivity.
Qed.

(** Which handlers return [false]: all but [op_branch], [op_jalr] and
    [op_jal] end in [return true]. *)
Lemma bind_true {A : Type} (m : M A) (k : A -> M bool) rv b rv' :
  (forall a rv1, k a rv1 = Some (b, rv') -> b = true) ->
  bind m k rv = Some (b, rv') -> b = true.
Proof.
  intros Hk. unfold bind.
  destruct (m rv) as [[a rv1] |]; [apply Hk | discriminate].
Qed.

Lemma ret_true rv b rv' : ret true rv = Some (b, rv') -> b = true.
Proof. unfold ret. intros E. injection E as <- _. reflexivity. Qed.

Ltac ends_in_return_true :=
  repeat (apply bind_true; intros ? ?); apply ret_true.

Lemma sequential_handlers_return_true inst rv b rv' :
  op_load io inst rv = Some (b, rv') \/
  op_load_fp io inst rv = Some (b, rv') \/
  op_misc_mem inst rv = Some (b, rv') \/
  op_op_imm inst rv = Some (b, rv') \/
  op_auipc inst rv = Some (b, rv') \/
  op_store io inst rv = Some (b, rv') \/
  op_store_fp io inst rv = Some (b, rv') \/
  op_amo io inst rv = Some (b, rv') \/
  op_op cfg inst rv = Some (b, rv') \/
  op_lui inst rv = Some (b, rv') \/
  op_madd fp inst rv = Some (b, rv') \/
  op_msub fp inst rv = Some (b, rv') \/
  op_nmsub fp inst rv = Some (b, rv') \/
  op_nmadd fp inst rv = Some (b, rv') \/
  op_fp fp inst rv = Some (b, rv') \/
  op_system io cfg inst rv = Some (b, rv') ->
  b = true.
Proof.
  intros E.
  repeat match type of E with _ \/ _ => destruct E as [E | E] end;
    revert E;
    unfold op_load, op_load_fp, op_misc_mem, op_op_imm, op_auipc, op_store,
      op_store_fp, op_amo, op_op, op_lui, op_madd, op_msub, op_nmsub,
      op_nmadd, op_fused, op_fp, op_system;
    ends_in_return_true.
Qed.

Lemma opcodes_returning_false op inst rv rv' :
  In (Some op) (opcodes io fp cfg) ->
  op inst rv = Some (false, rv') ->
  op = op_branch \/ op = op_jalr \/ op = op_jal.
Proof.
  intros I E.
  assert (T : forall b : bool, b = false -> b = true -> False)
    by (intros b -> D; discriminate D).
  unfold opcodes, built, NULL in I.
  destruct (SUPPORT_RV32F cfg), (SUPPORT_RV32A cfg), (SUPPORT_Zifencei cfg);
    cbn [In] in I;
    repeat match type of I with _ \/ _ => destruct I as [I | I] end;
    try contradiction; try discriminate I;
    injection I as <-; auto;
    exfalso; apply (T false eq_refl);
    apply (sequential_handlers_return_true inst rv false rv'); tauto.
Qed.

(** A branch, taken or not, returns [false] and leaves the cycle counter
    alone. *)
Lemma op_branch_returns_false inst rv taken :
  branch_taken (dec_funct3 inst) (X rv (dec_rs1 inst)) (X rv (dec_rs2 inst))
    = Some taken ->
  exists rv',
    op_branch inst rv = Some (false, rv') /\
    csr_cycle rv' = csr_cycle rv /\
    PC rv' = u32 (PC rv + if taken then dec_btype_imm inst else 4).
Proof.
  intros Ht. unfold op_branch. run_handler. rewrite Ht.
  destruct taken; cbv beta iota; read_fields;
    [destruct (negb (Z.land (u32 (PC rv + dec_btype_imm inst)) 3 =? 0))|];
    eexists; repeat split.
Qed.

(** So [rv_step] returns after the first branch it meets, whatever is
    left of its budget, and without counting a cycle for it. *)
Lemma rv_step_stops_at_branch fuel rv cycles inst h taken :
  running (u64 (csr_cycle rv + cycles)) rv = true ->
  mem_ifetch io (userdata rv) (PC rv) = (inst, h) ->
  Z.shiftr (Z.land (u32 inst) INST_6_2) 2 = 24 ->
  branch_taken (dec_funct3 (u32 inst)) (X rv (dec_rs1 (u32 inst)))
               (X rv (dec_rs2 (u32 inst))) = Some taken ->
  exists rv',
    rv_step io fp cfg (S fuel) rv cycles = Returned rv' /\
    csr_cycle rv' = csr_cycle rv /\
    PC rv' = u32 (PC rv + if taken then dec_btype_imm (u32 inst) else 4).
Proof.
  intros Er Ef Ei Ht. unfold rv_step.
  rewrite (rv_step_loop_turn fuel _ rv inst h op_branch Er Ef)
    by (rewrite Ei; reflexivity).
  destruct (op_branch_returns_false (u32 inst) (set_userdata h rv) taken Ht)
    as (rv' & E & Ec & Ep).
  rewrite E. exists rv'. repeat split; assumption.
Qed.

(** *** The loop ends

    No handler writes the cycle counter (of the CSRs only [mstatus] is
    writable), so every turn of the loop that goes on brings it one closer
    to the target, provided the trap hooks of the host leave it alone. *)

Local Abbreviation keeps m := (@keeps_cycle H _ m).

Lemma keeps_ret {A : Type} (a : A) : keeps (@ret H A a).
Proof. intros rv a' rv' E. injection E as _ <-. reflexivity. Qed.

Lemma keeps_unreachable {A : Type} : keeps (@unreachable H A).
Proof. intros rv a rv' E. discriminate E. Qed.

Lemma keeps_bind {A B : Type} (m : @M H A) (k : A -> @M H B) :
  keeps_cycle m -> (forall a, keeps (k a)) -> keeps (bind m k).
Proof.
  intros Hm Hk rv b rv'. unfold bind.
  destruct (m rv) as [[a rv1] |] eqn:E; [|discriminate].
  intros Ek. rewrite (Hk a rv1 b rv' Ek). apply (Hm rv a rv1 E).
Qed.

Lemma keeps_get {A : Type} (f : riscv_t H -> A) : keeps (get f).
Proof. intros rv a rv' E. injection E as _ <-. reflexivity. Qed.

Lemma keeps_modify (f : riscv_t H -> riscv_t H) :
  (forall rv, csr_cycle (f rv) = csr_cycle rv) -> keeps (modify f).
Proof. intros Hf rv a rv' E. injection E as _ <-. apply Hf. Qed.

Lemma keeps_io_read (cb : H -> Z -> Z * H) width addr :
  keeps (io_read cb width addr).
Proof.
  intros rv a rv'. unfold io_read.
  destruct (cb (userdata rv) addr) as [v h].
  intros E. injection E as _ <-. reflexivity.
Qed.

Lemma keeps_io_trap inst :
  traps_keep_cycle io ->
  keeps (io_trap (on_ecall io) inst) /\
  keeps (io_trap (on_ebreak io) inst).
Proof.
  intros T. split; apply keeps_modify; intros rv; apply T.
Qed.

Lemma csr_writable_is_mstatus csr :
  csr_is_writable csr = true -> csr_get_ptr cfg csr = Some ptr_mstatus.
Proof.
  unfold csr_is_writable. intros E. apply Z.eqb_eq in E. subst csr.
  reflexivity.
Qed.

Lemma keeps_csr_rmw new csr val : keeps (csr_rmw cfg new csr val).
Proof.
  unfold csr_rmw.
  destruct (csr_is_writable csr) eqn:W.
  - rewrite (csr_writable_is_mstatus csr W).
    apply keeps_bind; [apply keeps_get | intros out].
    apply keeps_bind; [|intros _; apply keeps_ret].
    apply keeps_modify. reflexivity.
  - destruct (csr_get_ptr cfg csr); [|apply keeps_ret].
    apply keeps_bind; [apply keeps_get | intros out].
    apply keeps_bind; intros; apply keeps_ret.
Qed.

Ltac keeps_cycle_step :=
  match goal with
  | |- keeps_cycle (bind _ _) => apply keeps_bind; [|intros ?]
  | |- keeps_cycle (ret _) => apply keeps_ret
  | |- keeps_cycle unreachable => apply keeps_unreachable
  | |- keeps_cycle (get _) => apply keeps_get
  | |- keeps_cycle (modify _) => apply keeps_modify; reflexivity
  | |- keeps_cycle (io_read _ _ _) => apply keeps_io_read
  | |- keeps_cycle (csr_rmw _ _ _ _) => apply keeps_csr_rmw
  | |- keeps_cycle (if ?c then _ else _) => destruct c
  | |- keeps_cycle (match ?x with _ => _ end) => destruct x
  end.

Ltac keeps_cycle_auto :=
  cbv beta zeta delta
    [getX setX getF setF getPC setPC io_write raise_exception step_over
     enforce_zero check_alignment amo_case op_fused
     csr_csrrw csr_csrrs csr_csrrc];
  repeat keeps_cycle_step.

Lemma handlers_keep_cycle inst :
  traps_keep_cycle io ->
  keeps (op_load io inst) /\ keeps (op_load_fp io inst) /\
  keeps (op_misc_mem inst) /\ keeps (op_op_imm inst) /\
  keeps (op_auipc inst) /\ keeps (op_store io inst) /\
  keeps (op_store_fp io inst) /\ keeps (op_amo io inst) /\
  keeps (op_op cfg inst) /\ keeps (op_lui inst) /\
  keeps (op_madd fp inst) /\ keeps (op_msub fp inst) /\
  keeps (op_nmsub fp inst) /\ keeps (op_nmadd fp inst) /\
  keeps (op_fp fp inst) /\ keeps (op_branch inst) /\
  keeps (op_jalr inst) /\ keeps (op_jal inst) /\
  keeps (op_system io cfg inst).
Proof.
  intros T. destruct (keeps_io_trap inst T) as [Tc Tb].
  repeat split;
    unfold op_load, op_load_fp, op_misc_mem, op_op_imm, op_auipc, op_store,
      op_store_fp, op_amo, op_op, op_lui, op_madd, op_msub, op_nmsub,
      op_nmadd, op_fp, op_branch, op_jalr, op_jal, op_system;
    keeps_cycle_auto; assumption.
Qed.

Lemma opcodes_keep_cycle op inst :
  traps_keep_cycle io ->
  In (Some op) (opcodes io fp cfg) -> keeps (op inst).
Proof.
  intros T I.
  pose proof (handlers_keep_cycle inst T) as K.
  unfold opcodes, built, NULL in I.
  destruct (SUPPORT_RV32F cfg), (SUPPORT_RV32A cfg), (SUPPORT_Zifencei cfg);
    cbn [In] in I;
    repeat match type of I with _ \/ _ => destruct I as [I | I] end;
    try contradiction; try discriminate I;
    injection I as <-; tauto.
Qed.

Lemma rv_step_loop_ends (n fuel : nat) cycles_target rv :
  traps_keep_cycle io ->
  0 <= csr_cycle rv ->
  cycles_target < 2 ^ 64 ->
  cycles_target - csr_cycle rv <= Z.of_nat n ->
  (n < fuel)%nat ->
  rv_step_loop io fp cfg fuel cycles_target rv <> OutOfFuel.
Proof.
  intros T. revert fuel rv.
  induction n as [| n IH]; intros fuel rv C0 Ht Hn Hf;
    (destruct fuel as [| fuel]; [lia|]); cbn [rv_step_loop];
    destruct (running cycles_target rv) eqn:R; try discriminate;
    unfold running in R; apply andb_true_iff in R; destruct R as [R _];
    apply Z.ltb_lt in R; [lia|].
  destruct (mem_ifetch io (userdata rv) (PC rv)) as [inst h].
  set (index := Z.to_nat (Z.shiftr (Z.land (u32 inst) INST_6_2) 2)).
  destruct (nth index (opcodes io fp cfg) NULL) as [op |] eqn:Eo;
    [|discriminate].
  assert (I : In (Some op) (opcodes io fp cfg)).
  { rewrite <- Eo.
    destruct (nth_in_or_default index (opcodes io fp cfg) NULL)
      as [I | D]; [exact I | rewrite D in Eo; discriminate]. }
  destruct (op (u32 inst) (set_userdata h rv)) as [[[] rv1] |] eqn:Er;
    try discriminate.
  pose proof (opcodes_keep_cycle op (u32 inst) T I _ _ _ Er) as K.
  cbn [csr_cycle set_userdata] in K.
  assert (Eu : u64 (csr_cycle rv1 + 1) = csr_cycle rv + 1)
    by (rewrite K; unfold u64; apply Z.mod_small; lia).
  apply IH; cbn [csr_cycle set_csr_cycle]; rewrite ?Eu; lia.
Qed.

(** With a fuel above the budget, [rv_step] returns or stops in an
    [assert]. *)
Lemma rv_step_ends fuel rv cycles :
  traps_keep_cycle io ->
  0 <= csr_cycle rv ->
  (Z.to_nat (u64 (csr_cycle rv + cycles) - csr_cycle rv) < fuel)%nat ->
  rv_step io fp cfg fuel rv cycles <> OutOfFuel.
Proof.
  intros T C0 Hf. unfold rv_step.
  apply rv_step_loop_ends
    with (n := Z.to_nat (u64 (csr_cycle rv + cycles) - csr_cycle rv));
    try assumption.
  - unfold u64. apply Z.mod_pos_bound. reflexivity.
  - lia.
Qed.

End RunLoop.

(** ** The A and F handlers *)

Section ExtensionHandlers.

Context {H : Type}.
Variable io : riscv_io_t H.
Variable fp : fp_host.

Implicit Types (rv : riscv_t H) (inst : Z).

(** The host calls of an AMO case: one word read and one half-word
    write, both at the address given to [amo_case]; [op_amo] gives it
    the register index [rs1]. *)
Lemma amo_case_host_calls rd rs1 rs2 res rv :
  exists rv' v h,
    amo_case io rd rs1 rs2 res rv = Some (tt, rv') /\
    mem_read_w io (userdata rv) rs1 = (v, h) /\
    X rv' rd = u32 v /\
    userdata rv' =
      mem_write_s io h rs1 (u16 (res (u32 v) (X rv' rs2))).
Proof.
  unfold amo_case. run_handler.
  destruct (mem_read_w io (userdata rv) rs1) as [v h].
  cbv beta iota. read_fields.
  eexists. exists v, h. split; [reflexivity|]. split; [reflexivity|].
  read_fields. rewrite !upd_same. split; reflexivity.
Qed.

(** The seven cases of [op_fp] that store into [X[rd]]: the value stays
    there whatever [rd] is, x0 included; nothing after the switch looks at
    [rd]. *)
Lemma op_fp_integer_destination inst rv :
  let rd := dec_rd inst in
  let f1 := F rv (dec_rs1 inst) in
  let f2 := F rv (dec_rs2 inst) in
  let stores (v : Z) :=
    exists rv', op_fp fp inst rv = Some (true, rv') /\ X rv' rd = v in
  (dec_funct7 inst = 96 -> dec_rs2 inst = 0 ->
   stores (u32 (fp_to_int32 fp f1))) /\
  (dec_funct7 inst = 96 -> dec_rs2 inst = 1 ->
   stores (u32 (fp_to_uint32 fp f1))) /\
  (dec_funct7 inst = 112 -> dec_funct3 inst = 0 -> stores f1) /\
  (dec_funct7 inst = 112 -> dec_funct3 inst = 1 -> stores (calc_fclass f1)) /\
  (dec_funct7 inst = 80 -> dec_funct3 inst = 2 ->
   stores (if fp_eq fp f1 f2 then 1 else 0)) /\
  (dec_funct7 inst = 80 -> dec_funct3 inst = 1 ->
   stores (if fp_lt fp f1 f2 then 1 else 0)) /\
  (dec_funct7 inst = 80 -> dec_funct3 inst = 0 ->
   stores (if fp_le fp f1 f2 then 1 else 0)).
Proof.
  cbv zeta. repeat split; intros Hf7 Hsub;
    unfold op_fp; run_handler; rewrite Hf7, ?Hsub;
    try (rewrite Hf7 in Hsub; discriminate Hsub);
    cbv beta iota; rewrite ?Hsub; cbv beta iota;
    eexists; (split; [reflexivity|]);
    read_fields; apply upd_same.
Qed.

End ExtensionHandlers.

(** ** The handlers and the run loop on concrete programs *)

Section Scenarios.

Import Host.

Local Abbreviation zeroed := (fun _ : Z => 0).

(** The decoders on negative immediates: BEQ and JAL to -4, SW at -4,
    ADDI of -3; and on the upper immediate and the CSR index. *)
Example decode_immediates :
  dec_btype_imm 0xFE000EE3 = -4 /\
  dec_jtype_imm 0xFFDFF06F = -4 /\
  dec_stype_imm 0xFE002E23 = -4 /\
  dec_itype_imm 0xFFD00113 = -3 /\
  dec_utype_imm 0x12345037 = 0x12345000 /\
  dec_csr 0xC00110F3 = CSR_CYCLE.
Proof. repeat split. Qed.

(** Byte loads: with 0xFF at address 0x100 and [X[10] = 0x100], LB x11,
    0(x10) sign-extends and LBU x12, 0(x10) does not. *)
Example op_load_byte_extension :
  let mem (a : Z) := if a =? 0x100 then 0xff else 0 in
  let rv := set_X_cell 10 0x100 (boot 0 mem 0x1000) in
  (exists rv', op_load io 0x00050583 rv = Some (true, rv') /\
               X rv' 11 = 0xffffffff) /\
  (exists rv', op_load io 0x00054603 rv = Some (true, rv') /\
               X rv' 12 = 0x000000ff).
Proof.
  split; eexists; (split; [vm_compute; reflexivity|]); reflexivity.
Qed.

(** CSRRW x1, cycle, x2 on the read-only cycle counter: x1 receives the
    counter and the counter stays. *)
Example op_system_csrrw_cycle :
  let rv := set_csr_cycle 41 (boot 0 zeroed 0x1000) in
  exists rv',
    op_system io full 0xC00110F3 rv = Some (true, rv') /\
    X rv' 1 = 41 /\ csr_cycle rv' = 41.
Proof.
  eexists. split; [vm_compute; reflexivity|]. split; reflexivity.
Qed.

(** C1: every instruction with [rd = 0] should leave [X[0] = 0], the
    F-extension instructions that write an integer register among them.
    [op_fp] has no "enforce zero register" step: FCLASS.S x0, f0 on a hart
    fresh from reset, where [F[0]] is +0, leaves the class mask 0x10 in
    [X[0]]. *)
Theorem op_fp_fclass_writes_x0 (fp : fp_host) :
  dec_rd FCLASS_S_x0_f0 = rv_reg_zero /\
  exists rv',
    op_fp fp FCLASS_S_x0_f0 (boot 0 zeroed 0x1000) = Some (true, rv') /\
    X rv' rv_reg_zero = 0x10.
Proof.
  split; [reflexivity|]. eexists. split; [vm_compute; reflexivity|].
  reflexivity.
Qed.

(** The same instruction under [rv_step]: the write to x0 survives the
    step. *)
Example rv_step_fclass_writes_x0 :
  X (after_step 2 (boot FCLASS_S_x0_f0 zeroed 0x1000) 1) rv_reg_zero = 0x10.
Proof. vm_compute. reflexivity. Qed.

(** C2: a taken branch under [rv_step] should add one to [csr_cycle],
    as every retired instruction should.  [rv_step] runs BEQ x0, x0, +8
    at 0x1000 with a budget of one cycle: the branch is fetched and taken,
    and [csr_cycle] is still 0. *)
Theorem rv_step_taken_branch_counts_no_cycle (fuel : nat) :
  exists rv',
    rv_step io no_fp full (S fuel) (boot BEQ_x0_x0_plus_8 zeroed 0x1000) 1
      = Returned rv' /\
    trace (userdata rv') = [Ifetch 0x1000] /\
    PC rv' = 0x1008 /\
    exception rv' = rv_except_none /\
    csr_cycle rv' = 0.
Proof.
  eexists. split; [vm_compute; reflexivity|]. repeat split.
Qed.

(** The misaligned branch of the specification's scenarios, BEQ x0, x0,
    +6 at 0x1000: the target and the latch are as expected, the cycle
    counter is not. *)
Example rv_step_misaligned_branch (fuel : nat) :
  exists rv',
    rv_step io no_fp full (S fuel) (boot BEQ_x0_x0_plus_6 zeroed 0x1000) 1
      = Returned rv' /\
    PC rv' = 0x1006 /\
    exception rv' = rv_except_inst_misaligned /\
    csr_cycle rv' = 0.
Proof.
  eexists. split; [vm_compute; reflexivity|]. repeat split.
Qed.

(** An instruction that falls through is counted: ADDI x1, x0, 7 three
    times over. *)
Example rv_step_addi_chain :
  let rv' := after_step 4 (boot 0x00700093 zeroed 0x1000) 3 in
  X rv' 1 = 7 /\ PC rv' = 0x100c /\ csr_cycle rv' = 3.
Proof. vm_compute. repeat split. Qed.

(** C3: when [rv_step] returns, the cycle target should be reached or
    an exception latched.  With a budget of ten cycles, JAL x1, +16 at
    0x2000 makes [rv_step] return after that one instruction: the jump
    is done and the link written, no exception is latched, and the cycle
    counter is below the target. *)
Theorem rv_step_returns_early (fuel : nat) :
  rv_step io no_fp full (S fuel) jal_hart 10 = Returned after_jal /\
  trace (userdata after_jal) = [Ifetch 0x2000] /\
  PC after_jal = 0x2010 /\
  X after_jal 1 = 0x2004 /\
  exception after_jal = rv_except_none /\
  csr_cycle after_jal < u64 (csr_cycle jal_hart + 10).
Proof.
  split; [vm_compute; reflexivity|]. repeat split.
Qed.

(** C4: an AMO should read and write back the word at [X[rs1]], the
    write going through [mem_write_w], and leave the old word in [rd].
    AMOADD.W x3, x5, (x1) with [X[1] = 0x100] reads the word at address
    1, the index of the register, writes the sum back with the half-word
    callback at address 1, and leaves in x3 what it read there. *)
Theorem op_amo_uses_register_index :
  exists rv',
    op_amo io AMOADD_W_x3_x5_x1 amo_hart = Some (true, rv') /\
    X amo_hart (dec_rs1 AMOADD_W_x3_x5_x1) = 0x100 /\
    trace (userdata rv') = [ReadW 1; WriteS 1 0x0006] /\
    X rv' 3 = 0x70001.
Proof.
  eexists. split; [vm_compute; reflexivity|]. repeat split.
Qed.

(** C5: FCLASS.S should give the one bit of [fclass_spec] on every
    pattern, bit 6 or bit 1 on every normal number.  [FLT_MAX] and
    [-FLT_MAX], and the powers of two 0x7f000000 and 0xff000000, get no
    bit at all from [calc_fclass]; a signaling NaN whose fraction is 0x800
    is reported as quiet. *)
Theorem calc_fclass_misses_large_normals :
  (calc_fclass 0x7f7fffff = 0 /\ fclass_spec 0x7f7fffff = 0x040) /\
  (calc_fclass 0xff7fffff = 0 /\ fclass_spec 0xff7fffff = 0x002) /\
  (calc_fclass 0x7f000000 = 0 /\ fclass_spec 0x7f000000 = 0x040) /\
  (calc_fclass 0xff000000 = 0 /\ fclass_spec 0xff000000 = 0x002) /\
  (calc_fclass 0x7f800800 = 0x200 /\ fclass_spec 0x7f800800 = 0x100).
Proof. repeat split. Qed.

(** The classes the tests do tell apart. *)
Example calc_fclass_classes :
  map calc_fclass
      [0xff800000; 0xbf800000; 0x80000001; 0x80000000;
       0x00000000; 0x00000001; 0x3f800000; 0x7f800000;
       0x7f800001; 0x7fc00000]
  = [0x001; 0x002; 0x004; 0x008; 0x010; 0x020; 0x040; 0x080; 0x100; 0x200]
  /\
  map fclass_spec
      [0xff800000; 0xbf800000; 0x80000001; 0x80000000;
       0x00000000; 0x00000001; 0x3f800000; 0x7f800000;
       0x7f800001; 0x7fc00000]
  = [0x001; 0x002; 0x004; 0x008; 0x010; 0x020; 0x040; 0x080; 0x100; 0x200].
Proof. split; reflexivity. Qed.

Lemma op_op_division_edge_cases_witness :
  (is_u32 (X overflow_hart 1) /\ is_u32 (X overflow_hart 2)) /\
  exists rv',
    op_op full DIV_x3_x1_x2 overflow_hart = Some (true, rv') /\
    X rv' 3 = 0x80000000.
Proof.
  assert (R1 : is_u32 (X overflow_hart (dec_rs1 DIV_x3_x1_x2)))
    by (vm_compute; split; [discriminate | reflexivity]).
  assert (R2 : is_u32 (X overflow_hart (dec_rs2 DIV_x3_x1_x2)))
    by (vm_compute; split; [discriminate | reflexivity]).
  split; [split; [exact R1 | exact R2]|].
  assert (N : dec_rd DIV_x3_x1_x2 <> rv_reg_zero)
    by (vm_compute; discriminate).
  destruct (op_op_division_edge_cases full DIV_x3_x1_x2 overflow_hart
              eq_refl eq_refl N R1 R2) as [D _].
  destruct (D eq_refl) as (rv' & E & _ & Hov & _).
  exists rv'. split; [exact E|]. apply Hov. split; reflexivity.
Defined.

Lemma op_branch_misalignment_witness :
  exists rv',
    op_branch BEQ_x0_x0_plus_6 (boot 0 zeroed 0x1000) = Some (false, rv') /\
    PC rv' = 0x1006 /\
    exception rv' = rv_except_inst_misaligned.
Proof.
  destruct (op_branch_misalignment BEQ_x0_x0_plus_6 (boot 0 zeroed 0x1000)
              true eq_refl) as (rv' & E & T & _).
  destruct (T eq_refl) as (P & M & _).
  exists rv'. split; [exact E|]. split; [exact P|].
  apply M. rewrite P. vm_compute. discriminate.
Defined.

Lemma op_jalr_target_from_old_rs1_witness :
  dec_rd JALR_x1_4_x1 = dec_rs1 JALR_x1_4_x1 /\
  exists rv',
    op_jalr JALR_x1_4_x1 jalr_hart = Some (false, rv') /\
    PC rv' = 0x2004 /\
    X rv' 1 = 0x1004.
Proof.
  split; [reflexivity|].
  destruct (op_jalr_target_from_old_rs1 JALR_x1_4_x1 jalr_hart eq_refl)
    as (rv' & E & P & L).
  exists rv'. split; [exact E|]. split; [exact P|].
  apply L. vm_compute. discriminate.
Defined.

Lemma op_store_frame_witness :
  In (dec_funct3 SH_x2_6_x2) [0; 1; 2] /\
  exists rv',
    op_store io SH_x2_6_x2 (boot 0 zeroed 0x1000) = Some (true, rv') /\
    X rv' = X (boot 0 zeroed 0x1000) /\
    PC rv' = 0x1004 /\
    trace (userdata rv') = [WriteS 0xfffff006 0xf000].
Proof.
  assert (I : In (dec_funct3 SH_x2_6_x2) [0; 1; 2])
    by (right; left; reflexivity).
  split; [exact I|].
  destruct (op_store_frame io SH_x2_6_x2 (boot 0 zeroed 0x1000) I)
    as (rv' & E & Hx & _ & _ & _ & _ & _ & Hp & Hu).
  exists rv'. split; [exact E|]. split; [exact Hx|]. split; [exact Hp|].
  rewrite Hu. reflexivity.
Defined.

End Scenarios.

(** * Further properties of the interpreter *)

(** ** Rules for assertions *)

Section Assertions.

Context {H : Type}.

Implicit Types (rv : riscv_t H) (P I : riscv_t H -> Prop).

Lemma triple_ret {A : Type} P (a : A) (Q : A -> riscv_t H -> Prop) :
  (forall rv, P rv -> Q a rv) -> triple P (ret a) Q.
Proof. intros Hq rv a' rv' E Hp. injection E as <- <-. auto. Qed.

Lemma triple_bind {A B : Type} P (R : A -> riscv_t H -> Prop)
    (Q : B -> riscv_t H -> Prop) (m : M A) (k : A -> M B) :
  triple P m R -> (forall a, triple (R a) (k a) Q) -> triple P (bind m k) Q.
Proof.
  intros Hm Hk rv b rv'. unfold bind.
  destruct (m rv) as [[a rv1] |] eqn:E; [|discriminate].
  intros Ek Hp. exact (Hk a rv1 b rv' Ek (Hm rv a rv1 E Hp)).
Qed.

Lemma triple_weaken {A : Type} P P' (m : M A) (Q : A -> riscv_t H -> Prop) :
  (forall rv, P' rv -> P rv) -> triple P m Q -> triple P' m Q.
Proof. intros Hp Hm rv a rv' E Hp'. eauto. Qed.

Lemma triple_unreachable {A : Type} P (Q : A -> riscv_t H -> Prop) :
  triple P (@unreachable H A) Q.
Proof. intros rv a rv' E. discriminate E. Qed.

Lemma preserves_ret {A : Type} I (a : A) : preserves I (@ret H A a).
Proof. apply triple_ret. auto. Qed.

Lemma preserves_unreachable {A : Type} I : preserves I (@unreachable H A).
Proof. intros rv a rv' E. discriminate E. Qed.

Lemma preserves_bind {A B : Type} I (m : @M H A) (k : A -> @M H B) :
  preserves I m -> (forall a, preserves I (k a)) -> preserves I (bind m k).
Proof. intros Hm Hk. eapply triple_bind; [exact Hm | exact Hk]. Qed.

Lemma preserves_get {A : Type} I (f : riscv_t H -> A) : preserves I (get f).
Proof. intros rv a rv' E Hi. injection E as _ <-. exact Hi. Qed.

Lemma preserves_modify I (f : riscv_t H -> riscv_t H) :
  (forall rv, I rv -> I (f rv)) -> preserves I (modify f).
Proof. intros Hf rv a rv' E Hi. injection E as _ <-. auto. Qed.

Lemma preserves_io_read I (cb : H -> Z -> Z * H) width addr :
  (forall rv h, I rv -> I (set_userdata h rv)) ->
  preserves I (io_read cb width addr).
Proof.
  intros Hu rv a rv'. unfold io_read.
  destruct (cb (userdata rv) addr) as [v h].
  intros E Hi. injection E as _ <-. auto.
Qed.

End Assertions.

(** One step of a proof that a handler keeps an assertion: the sequencing
    is taken apart, and [field] is left to show that a write to one field
    of the hart keeps the assertion. *)
Ltac preserves_step field :=
  match goal with
  | |- preserves _ step_over => assumption
  | |- preserves _ (enforce_zero _) => assumption
  | |- preserves _ (bind _ _) => apply preserves_bind; [|intros ?]
  | |- preserves _ (ret _) => apply preserves_ret
  | |- preserves _ unreachable => apply preserves_unreachable
  | |- preserves _ (get _) => apply preserves_get
  | |- preserves _ (modify _) => apply preserves_modify; field
  | |- preserves _ (io_read _ _ _) => apply preserves_io_read; field
  | |- preserves _ (if ?c then _ else _) => destruct c
  | |- preserves _ (match ?x with _ => _ end) => destruct x
  end.

Ltac unfold_accessors :=
  cbv beta zeta delta
    [getX setX getF setF getPC setPC io_write io_trap raise_exception
     amo_case op_fused csr_csrrw csr_csrrs csr_csrrc csr_rmw].

(** Split a conjunction that is written out, and no further. *)
Ltac split_all := repeat match goal with |- _ /\ _ => split end.

(** A write that leaves [PC] and the latch alone, or a trap hook that is
    assumed to. *)
Ltac field_of_hart :=
  intros;
  try match goal with c : csr_ptr |- _ => destruct c end;
  first
    [ assumption
    | match goal with
      | T : traps_keep _ _ |- _ => apply T; assumption
      end ].

(** ** Alignment of the program counter *)

Section Alignment.

Context {H : Type}.
Variable io : riscv_io_t H.
Variable fp : fp_host.
Variable cfg : rv_config.

Implicit Types (rv : riscv_t H) (inst : Z).

Lemma land_3_mod_4 z : Z.land z 0x3 = z mod 4.
Proof. change 0x3 with (Z.ones 2). apply Z.land_ones. lia. Qed.

Lemma aligned_after_step pc :
  Z.land pc 0x3 = 0 -> Z.land (u32 (pc + 4)) 0x3 = 0.
Proof.
  rewrite !land_3_mod_4. unfold u32. intros E.
  revert E. Z.to_euclidean_division_equations. lia.
Qed.

Lemma fetchable_step_over : preserves (@fetchable H) step_over.
Proof.
  intros rv [] rv' E [He Ha]. injection E as <-.
  split; [exact He | exact (aligned_after_step (PC rv) Ha)].
Qed.

Lemma fetchable_enforce_zero rd : preserves (@fetchable H) (enforce_zero rd).
Proof.
  unfold enforce_zero. destruct (rd =? rv_reg_zero);
    [apply preserves_modify | apply preserves_ret]; field_of_hart.
Qed.

(** The handlers that fall through keep the hart fetchable. *)
Lemma sequential_handlers_keep_fetchable inst :
  traps_keep io fetchable ->
  preserves fetchable (op_load io inst) /\
  preserves fetchable (op_load_fp io inst) /\
  preserves fetchable (@op_misc_mem H inst) /\
  preserves fetchable (@op_op_imm H inst) /\
  preserves fetchable (@op_auipc H inst) /\
  preserves fetchable (op_store io inst) /\
  preserves fetchable (op_store_fp io inst) /\
  preserves fetchable (op_amo io inst) /\
  preserves fetchable (@op_op H cfg inst) /\
  preserves fetchable (@op_lui H inst) /\
  preserves fetchable (@op_madd H fp inst) /\
  preserves fetchable (@op_msub H fp inst) /\
  preserves fetchable (@op_nmsub H fp inst) /\
  preserves fetchable (@op_nmadd H fp inst) /\
  preserves fetchable (@op_fp H fp inst) /\
  preserves fetchable (op_system io cfg inst).
Proof.
  intros T.
  pose proof fetchable_step_over as Hs.
  assert (Hz : forall rd, preserves (@fetchable H) (enforce_zero rd))
    by exact fetchable_enforce_zero.
  split_all;
    unfold op_load, op_load_fp, op_misc_mem, op_op_imm, op_auipc, op_store,
      op_store_fp, op_amo, op_op, op_lui, op_madd, op_msub, op_nmsub,
      op_nmadd, op_fp, op_system;
    unfold_accessors;
    repeat (first [apply Hz | preserves_step field_of_hart]).
Qed.

(** The handlers behind the slots of the dispatch table, with the build
    switch each optional one needs. *)
Lemma opcodes_handlers (op : opcode_t) :
  In (Some op) (opcodes io fp cfg) ->
  (op = op_load io \/ op = op_op_imm \/ op = op_auipc \/ op = op_store io \/
   op = op_op cfg \/ op = op_lui \/ op = op_branch \/ op = op_jalr \/
   op = op_jal \/ op = op_system io cfg) \/
  (SUPPORT_RV32F cfg = true /\
   (op = op_load_fp io \/ op = op_store_fp io \/ op = op_madd fp \/
    op = op_msub fp \/ op = op_nmsub fp \/ op = op_nmadd fp \/
    op = op_fp fp)) \/
  (SUPPORT_RV32A cfg = true /\ op = op_amo io) \/
  (SUPPORT_Zifencei cfg = true /\ op = op_misc_mem).
Proof.
  intros I. unfold opcodes, built, NULL in I.
  destruct (SUPPORT_RV32F cfg), (SUPPORT_RV32A cfg), (SUPPORT_Zifencei cfg);
    cbn [In] in I;
    repeat match type of I with _ \/ _ => destruct I as [I | I] end;
    try contradiction; try discriminate I;
    injection I as <-; tauto.
Qed.

(** An assertion that every handler of the table re-establishes, from a
    hart with nothing latched, holds when [rv_step] returns. *)
Lemma rv_step_loop_invariant (I : riscv_t H -> Prop) :
  (forall rv h, I rv -> I (set_userdata h rv)) ->
  (forall rv c, I rv -> I (set_csr_cycle c rv)) ->
  (forall op inst,
      In (Some op) (opcodes io fp cfg) ->
      triple (fun rv => I rv /\ exception rv = rv_except_none) (op inst)
             (fun _ => I)) ->
  forall fuel cycles_target rv rv',
    I rv ->
    rv_step_loop io fp cfg fuel cycles_target rv = Returned rv' -> I rv'.
Proof.
  intros Hu Hc Hop fuel cycles_target.
  induction fuel as [| fuel IH]; intros rv rv' Hi; [discriminate|].
  cbn [rv_step_loop].
  destruct (running cycles_target rv) eqn:R;
    [|intros E; injection E as <-; exact Hi].
  unfold running in R. apply andb_true_iff in R. destruct R as [_ R].
  apply Z.eqb_eq in R.
  destruct (mem_ifetch io (userdata rv) (PC rv)) as [inst h].
  set (index := Z.to_nat (Z.shiftr (Z.land (u32 inst) INST_6_2) 2)).
  destruct (nth index (opcodes io fp cfg) NULL) as [op |] eqn:Eo;
    [|discriminate].
  assert (Io : In (Some op) (opcodes io fp cfg)).
  { rewrite <- Eo.
    destruct (nth_in_or_default index (opcodes io fp cfg) NULL)
      as [Io | D]; [exact Io | rewrite D in Eo; discriminate]. }
  destruct (op (u32 inst) (set_userdata h rv)) as [[b rv1] |] eqn:Er;
    [|discriminate].
  assert (I1 : I rv1).
  { apply (Hop op (u32 inst) Io _ _ _ Er). split; [apply Hu; exact Hi|].
    exact R. }
  destruct b; [apply IH; apply Hc; exact I1|].
  intros E. injection E as <-. exact I1.
Qed.

Lemma check_alignment_latches :
  triple (fun rv => exception rv = rv_except_none) check_alignment
         (fun _ => @latch_consistent H).
Proof.
  intros rv [] rv' E He. revert E. unfold check_alignment. run_handler.
  destruct (Z.eqb_spec (Z.land (PC rv) 3) 0) as [A | A];
    cbv beta iota delta [negb]; intros E; injection E as <-.
  - left. split; assumption.
  - right. split; [reflexivity | exact A].
Qed.

(** The three control transfers leave the latch and the program counter
    in agreement. *)
Lemma control_transfers_latch inst :
  triple fetchable (@op_branch H inst) (fun _ => latch_consistent) /\
  triple fetchable (@op_jalr H inst) (fun _ => latch_consistent) /\
  triple fetchable (@op_jal H inst) (fun _ => latch_consistent).
Proof.
  assert (Hx : forall r v, preserves (fun rv : riscv_t H =>
                             exception rv = rv_except_none) (setX r v))
    by (intros r v; apply preserves_modify; auto).
  assert (Hp : forall v, triple (@fetchable H) (setPC v)
                 (fun _ rv => exception rv = rv_except_none)).
  { intros v rv [] rv' E [He _]. injection E as <-. exact He. }
  assert (Hl : forall (c : bool) r v,
             preserves (fun rv : riscv_t H => exception rv = rv_except_none)
                       (if c then setX r v else ret tt))
    by (intros [] r v; [apply Hx | apply preserves_ret]).
  assert (Hf : forall (b : bool),
             triple (@latch_consistent H) (ret b) (fun _ => latch_consistent))
    by (intros b; apply preserves_ret).
  split_all.
  - unfold op_branch.
    eapply triple_bind; [apply preserves_get | intros x1].
    eapply triple_bind; [apply preserves_get | intros x2].
    destruct (branch_taken _ x1 x2) as [[|] |]; cbv iota;
      [| | apply triple_unreachable].
    + eapply triple_bind; [|intros ?; apply Hf].
      eapply triple_bind; [apply preserves_get | intros pc].
      eapply triple_bind; [apply Hp | intros ?].
      apply check_alignment_latches.
    + eapply triple_bind; [apply fetchable_step_over | intros ?].
      apply triple_ret. intros rv Hk. left. exact Hk.
  - unfold op_jalr.
    eapply triple_bind; [apply preserves_get | intros pc].
    eapply triple_bind; [apply preserves_get | intros x1].
    eapply triple_bind; [apply Hp | intros ?].
    eapply triple_bind; [apply Hl | intros ?].
    eapply triple_bind; [apply check_alignment_latches | intros ?; apply Hf].
  - unfold op_jal.
    eapply triple_bind; [apply preserves_get | intros pc].
    eapply triple_bind; [apply Hp | intros ?].
    eapply triple_bind; [apply Hl | intros ?].
    eapply triple_bind; [apply check_alignment_latches | intros ?; apply Hf].
Qed.

(** X1: The latch and the program counter agree whenever [rv_step] returns,
    if they did when it was called and the trap hooks of the host neither
    latch an exception nor misalign the program counter: either nothing is
    latched and [PC] is a multiple of four, or instruction-misaligned is
    latched and [PC] is the misaligned target.  In particular the loop
    never fetches at a misaligned address. *)
Theorem rv_step_keeps_latch_consistent fuel rv cycles rv' :
  traps_keep io fetchable ->
  latch_consistent rv ->
  rv_step io fp cfg fuel rv cycles = Returned rv' ->
  latch_consistent rv'.
Proof.
  intros T Hi. unfold rv_step.
  apply rv_step_loop_invariant; try assumption; try (intros; assumption).
  intros op inst Io rv0 b rv1 E [Hl He].
  assert (Hk : fetchable rv0).
  { destruct Hl as [Hl | [Hl _]]; [exact Hl|].
    rewrite He in Hl. discriminate Hl. }
  destruct (sequential_handlers_keep_fetchable inst T)
    as (S1 & S2 & S3 & S4 & S5 & S6 & S7 & S8 & S9 & S10 & S11 & S12 & S13
        & S14 & S15 & S16).
  destruct (control_transfers_latch inst) as (C1 & C2 & C3).
  assert (L : forall m : M bool, preserves fetchable m ->
                m rv0 = Some (b, rv1) -> latch_consistent rv1)
    by (intros m Hm Em; left; exact (Hm _ _ _ Em Hk)).
  destruct (opcodes_handlers op Io)
    as [Ho | [[_ Ho] | [[_ Ho] | [_ Ho]]]];
    repeat match type of Ho with _ \/ _ => destruct Ho as [Ho | Ho] end;
    subst op; eauto.
Qed.

End Alignment.

(** ** The zero register *)

Section ZeroRegister.

Context {H : Type}.
Variable io : riscv_io_t H.
Variable fp : fp_host.
Variable cfg : rv_config.

Implicit Types (rv : riscv_t H) (inst rd : Z).

Lemma x0_unless_store rd v rv :
  x0_zero_unless rd rv -> x0_zero_unless rd (set_X_cell rd v rv).
Proof.
  intros [Hz | Hx]; [left; exact Hz|].
  destruct (Z.eq_dec rd rv_reg_zero) as [E | N]; [left; exact E | right].
  unfold x0_zero. cbn [X set_X_cell]. rewrite upd_other; [exact Hx|].
  intros E. apply N. symmetry. exact E.
Qed.

Lemma x0_unless_trap rd :
  traps_keep io x0_zero -> traps_keep io (x0_zero_unless rd).
Proof.
  intros T rv pc inst [Hz | Hx]; [split; left; exact Hz|].
  destruct (T rv pc inst Hx). split; right; assumption.
Qed.

(** A write that keeps [x0_zero_unless rd]: into [X[rd]], into another
    field, or by a trap hook that is assumed to keep x0. *)
Ltac field_unless_rd :=
  intros;
  try match goal with c : csr_ptr |- _ => destruct c end;
  first
    [ assumption
    | apply x0_unless_store; assumption
    | match goal with
      | T : traps_keep _ _ |- _ => apply T; assumption
      end ].

Lemma x0_unless_enforce rd :
  triple (x0_zero_unless rd) (@enforce_zero H rd) (fun _ => x0_zero).
Proof.
  intros rv [] rv'. unfold enforce_zero.
  destruct (Z.eqb_spec rd rv_reg_zero) as [E | N]; intros R [Hz | Hx];
    injection R as <-; try reflexivity; try contradiction.
  exact Hx.
Qed.

(** Take apart a handler that ends with "enforce zero register". *)
Ltac enforcing_handler :=
  match goal with
  | |- triple _ (bind (enforce_zero _) _) _ =>
      eapply triple_bind;
      [apply x0_unless_enforce | intros ?; apply preserves_ret]
  | |- triple (x0_zero_unless ?rd) (bind ?m _) _ =>
      apply triple_bind with (R := fun _ => x0_zero_unless rd);
      [change (preserves (x0_zero_unless rd) m) | intros ?]
  end.

(** Every integer handler that stores into [X[rd]] leaves x0 at zero if
    it found it so, whatever [rd] is. *)
Lemma storing_handlers_keep_x0 inst :
  traps_keep io x0_zero ->
  preserves x0_zero (op_load io inst) /\
  preserves x0_zero (@op_op_imm H inst) /\
  preserves x0_zero (@op_auipc H inst) /\
  preserves x0_zero (@op_op H cfg inst) /\
  preserves x0_zero (@op_lui H inst) /\
  preserves x0_zero (op_amo io inst) /\
  preserves x0_zero (op_system io cfg inst).
Proof.
  intros T0.
  pose proof (x0_unless_trap (dec_rd inst) T0) as T.
  assert (Hs : preserves (x0_zero_unless (dec_rd inst)) (@step_over H))
    by (apply preserves_bind; [apply preserves_get | intros pc];
        apply preserves_modify; auto).
  split_all;
    (apply triple_weaken with (P := x0_zero_unless (dec_rd inst));
     [intros rv Hx; right; exact Hx|]);
    unfold op_load, op_op_imm, op_auipc, op_op, op_lui, op_amo, op_system;
    cbv zeta;
    repeat (first
      [ enforcing_handler
      | unfold_accessors; preserves_step field_unless_rd ]).
Qed.

(** The handlers that store a link only when [rd] is not x0, and those
    that store into no integer register. *)
Lemma other_handlers_keep_x0 inst :
  preserves x0_zero (@op_jal H inst) /\
  preserves x0_zero (@op_jalr H inst) /\
  preserves x0_zero (@op_branch H inst) /\
  preserves x0_zero (op_store io inst) /\
  preserves x0_zero (@op_misc_mem H inst) /\
  preserves x0_zero (op_load_fp io inst) /\
  preserves x0_zero (op_store_fp io inst) /\
  preserves x0_zero (@op_madd H fp inst) /\
  preserves x0_zero (@op_msub H fp inst) /\
  preserves x0_zero (@op_nmsub H fp inst) /\
  preserves x0_zero (@op_nmadd H fp inst).
Proof.
  assert (Hs : preserves (@x0_zero H) step_over)
    by (apply preserves_bind; [apply preserves_get | intros pc];
        apply preserves_modify; auto).
  assert (Hc : preserves (@x0_zero H) check_alignment).
  { apply preserves_bind; [apply preserves_get | intros pc].
    destruct (negb _); [apply preserves_modify; auto | apply preserves_ret]. }
  assert (Hl : forall rd v,
             preserves (@x0_zero H)
               (if negb (rd =? rv_reg_zero) then setX rd v else ret tt)).
  { intros rd v. destruct (Z.eqb_spec rd rv_reg_zero) as [E | N];
      [apply preserves_ret | apply preserves_modify].
    intros rv Hx. unfold x0_zero. cbn [X set_X_cell].
    rewrite upd_other; [exact Hx | intros E; apply N; symmetry; exact E]. }
  split_all;
    unfold op_jal, op_jalr, op_branch, op_store, op_misc_mem, op_load_fp,
      op_store_fp, op_madd, op_msub, op_nmsub, op_nmadd;
    cbv zeta;
    repeat (first
      [ apply Hc | apply Hl
      | unfold_accessors; preserves_step ltac:(intros; assumption) ]).
Qed.

(** X2: Every handler but [op_fp] leaves x0 at zero if it found it so,
    whatever the instruction word; for [op_system] the trap hooks of the
    host must do the same. *)
Theorem handlers_keep_x0 (op : opcode_t) inst rv b rv' :
  traps_keep io x0_zero ->
  In op [op_load io; op_op_imm; op_auipc; op_op cfg; op_lui; op_amo io;
         op_system io cfg; op_jal; op_jalr; op_branch; op_store io;
         op_misc_mem; op_load_fp io; op_store_fp io; op_madd fp;
         op_msub fp; op_nmsub fp; op_nmadd fp] ->
  x0_zero rv ->
  op inst rv = Some (b, rv') ->
  x0_zero rv'.
Proof.
  intros T Ho H0 E.
  destruct (storing_handlers_keep_x0 inst T)
    as (S1 & S2 & S3 & S4 & S5 & S6 & S7).
  destruct (other_handlers_keep_x0 inst)
    as (O1 & O2 & O3 & O4 & O5 & O6 & O7 & O8 & O9 & O10 & O11).
  cbn [In] in Ho.
  repeat match type of Ho with _ \/ _ => destruct Ho as [Ho | Ho] end;
    try contradiction; subst op;
    match goal with
    | P : preserves x0_zero ?m |- _ =>
        match type of E with m _ = _ => exact (P _ _ _ E H0) end
    end.
Qed.

(** X3: In a build without the F extension x0 is zero whenever [rv_step]
    returns, if it was when [rv_step] was called and the trap hooks of
    the host leave it so. *)
Theorem rv_step_keeps_x0 fuel rv cycles rv' :
  SUPPORT_RV32F cfg = false ->
  traps_keep io x0_zero ->
  x0_zero rv ->
  rv_step io fp cfg fuel rv cycles = Returned rv' ->
  x0_zero rv'.
Proof.
  intros NF T Hx. unfold rv_step.
  apply rv_step_loop_invariant; try assumption; try (intros; assumption).
  intros op inst Io rv0 b rv1 E [H0 _].
  destruct (storing_handlers_keep_x0 inst T)
    as (S1 & S2 & S3 & S4 & S5 & S6 & S7).
  destruct (other_handlers_keep_x0 inst)
    as (O1 & O2 & O3 & O4 & O5 & _).
  destruct (opcodes_handlers io fp cfg op Io)
    as [Ho | [[F _] | [[_ Ho] | [_ Ho]]]];
    [| rewrite NF in F; discriminate F | |];
    repeat match type of Ho with _ \/ _ => destruct Ho as [Ho | Ho] end;
    subst op;
    match goal with
    | P : preserves x0_zero ?m |- _ =>
        match type of E with m _ = _ => exact (P _ _ _ E H0) end
    end.
Qed.

End ZeroRegister.

(** ** The control and status registers *)

Section Csrs.

Context {H : Type}.
Variable io : riscv_io_t H.
Variable fp : fp_host.
Variable cfg : rv_config.

Implicit Types (rv : riscv_t H) (inst : Z).

(** A read-modify-write stores only into [mstatus]. *)
Lemma csr_rmw_readonly c f new csr val :
  preserves (readonly_csrs c f) (@csr_rmw H cfg new csr val).
Proof.
  unfold csr_rmw.
  destruct (csr_is_writable csr) eqn:W.
  - rewrite (csr_writable_is_mstatus cfg csr W).
    apply preserves_bind; [apply preserves_get | intros out].
    apply preserves_bind; [|intros _; apply preserves_ret].
    apply preserves_modify. auto.
  - destruct (csr_get_ptr cfg csr); [|apply preserves_ret].
    apply preserves_bind; [apply preserves_get | intros out].
    apply preserves_bind; intros; apply preserves_ret.
Qed.

Lemma handlers_keep_readonly_csrs c f inst :
  traps_keep io (readonly_csrs c f) ->
  forall op, In (Some op) (opcodes io fp cfg) ->
             preserves (readonly_csrs c f) (op inst).
Proof.
  intros T op Io.
  assert (Hs : preserves (@readonly_csrs H c f) step_over)
    by (apply preserves_bind; [apply preserves_get | intros pc];
        apply preserves_modify; auto).
  assert (Hz : forall rd, preserves (@readonly_csrs H c f) (enforce_zero rd)).
  { intros rd. unfold enforce_zero. destruct (rd =? rv_reg_zero);
      [apply preserves_modify; auto | apply preserves_ret]. }
  assert (Hr : forall new csr val,
             preserves (readonly_csrs c f) (@csr_rmw H cfg new csr val))
    by (intros; apply csr_rmw_readonly).
  assert (Hc : preserves (@readonly_csrs H c f) check_alignment).
  { apply preserves_bind; [apply preserves_get | intros pc].
    destruct (negb _); [apply preserves_modify; auto | apply preserves_ret]. }
  destruct (opcodes_handlers io fp cfg op Io)
    as [Ho | [[_ Ho] | [[_ Ho] | [_ Ho]]]];
    repeat match type of Ho with _ \/ _ => destruct Ho as [Ho | Ho] end;
    subst op;
    unfold op_load, op_load_fp, op_misc_mem, op_op_imm, op_auipc, op_store,
      op_store_fp, op_amo, op_op, op_lui, op_madd, op_msub, op_nmsub,
      op_nmadd, op_fp, op_branch, op_jalr, op_jal, op_system;
    cbv zeta;
    repeat (first
      [ apply Hz | apply Hr | apply Hc
      | cbv beta zeta delta
          [getX setX getF setF getPC setPC io_write io_trap raise_exception
           amo_case op_fused csr_csrrw csr_csrrs csr_csrrc];
        preserves_step field_of_hart ]).
Qed.

(** X4: No instruction writes the cycle counter or [fcsr]: whatever handler
    the dispatch table holds leaves both as it found them, the CSR
    instructions that name them included, as long as the trap hooks of the
    host do. *)
Theorem instructions_keep_cycle_and_fcsr op inst rv b rv' :
  traps_keep io (readonly_csrs (csr_cycle rv) (csr_fcsr rv)) ->
  In (Some op) (opcodes io fp cfg) ->
  op inst rv = Some (b, rv') ->
  csr_cycle rv' = csr_cycle rv /\ csr_fcsr rv' = csr_fcsr rv.
Proof.
  intros T Io E.
  apply (handlers_keep_readonly_csrs _ _ inst T op Io rv b rv' E).
  split; reflexivity.
Qed.

(** X5: CSRRW, CSRRS and CSRRC on any CSR but [mstatus]: [rd] receives the
    CSR (the low or high half of the cycle counter, [fcsr] when the F
    extension is compiled in) or zero when the index is unknown, and the
    three CSRs are as before. *)
Theorem op_system_csr_read_only inst rv :
  SUPPORT_Zicsr cfg = true ->
  In (dec_funct3 inst) [1; 2; 3] ->
  dec_csr inst <> CSR_MSTATUS ->
  dec_rd inst <> rv_reg_zero ->
  exists rv',
    op_system io cfg inst rv = Some (true, rv') /\
    X rv' (dec_rd inst) =
      match csr_get_ptr cfg (dec_csr inst) with
      | Some c => csr_deref c rv
      | None => 0
      end /\
    csr_cycle rv' = csr_cycle rv /\
    csr_mstatus rv' = csr_mstatus rv /\
    csr_fcsr rv' = csr_fcsr rv /\
    PC rv' = u32 (PC rv + 4).
Proof.
  intros Hz Hf3 Hcsr Hrd.
  apply Z.eqb_neq in Hrd. apply Z.eqb_neq in Hcsr.
  unfold op_system, csr_csrrw, csr_csrrs, csr_csrrc, csr_rmw, csr_is_writable.
  run_handler. rewrite Hz, Hcsr, Hrd.
  destruct Hf3 as [E | [E | [E | []]]]; rewrite <- E; cbv beta iota;
    destruct (csr_get_ptr cfg (dec_csr inst)) as [c |]; cbv beta iota;
    eexists; (split; [reflexivity|]); read_fields; rewrite upd_same;
    repeat split.
Qed.

(** X6: The same three instructions on [mstatus]: [rd] receives the old
    value, and the operand written, or-ed in or masked out is [dec_rs1
    inst], the number in the rs1 field of the instruction. *)
Theorem op_system_csr_mstatus inst rv :
  SUPPORT_Zicsr cfg = true ->
  In (dec_funct3 inst) [1; 2; 3] ->
  dec_csr inst = CSR_MSTATUS ->
  dec_rd inst <> rv_reg_zero ->
  exists rv',
    op_system io cfg inst rv = Some (true, rv') /\
    X rv' (dec_rd inst) = csr_mstatus rv /\
    csr_mstatus rv' =
      match dec_funct3 inst with
      | 1 => dec_rs1 inst
      | 2 => Z.lor (csr_mstatus rv) (dec_rs1 inst)
      | _ => Z.land (csr_mstatus rv) (not32 (dec_rs1 inst))
      end /\
    csr_cycle rv' = csr_cycle rv /\
    csr_fcsr rv' = csr_fcsr rv.
Proof.
  intros Hz Hf3 Hcsr Hrd.
  apply Z.eqb_neq in Hrd.
  unfold op_system, csr_csrrw, csr_csrrs, csr_csrrc, csr_rmw.
  rewrite Hcsr.
  change (csr_is_writable CSR_MSTATUS) with true.
  change (csr_get_ptr cfg CSR_MSTATUS) with (Some ptr_mstatus).
  run_handler. rewrite Hz, Hrd.
  destruct Hf3 as [E | [E | [E | []]]]; rewrite <- E; cbv beta iota;
    eexists; (split; [reflexivity|]); read_fields; rewrite upd_same;
    repeat split.
Qed.

End Csrs.

(** ** The run loop: budget, empty slots, the JIT build *)

Section Budget.

Context {H : Type}.
Variable io : riscv_io_t H.
Variable fp : fp_host.
Variable cfg : rv_config.

Implicit Types (rv : riscv_t H) (inst : Z).

Lemma rv_step_loop_within fuel cycles_target rv rv' :
  traps_keep_cycle io ->
  0 <= csr_cycle rv <= cycles_target ->
  cycles_target < 2 ^ 64 ->
  rv_step_loop io fp cfg fuel cycles_target rv = Returned rv' ->
  csr_cycle rv <= csr_cycle rv' <= cycles_target.
Proof.
  intros T. revert rv.
  induction fuel as [| fuel IH]; intros rv C0 Ht; [discriminate|].
  cbn [rv_step_loop].
  destruct (running cycles_target rv) eqn:R;
    [|intros E; injection E as <-; lia].
  unfold running in R. apply andb_true_iff in R. destruct R as [R _].
  apply Z.ltb_lt in R.
  destruct (mem_ifetch io (userdata rv) (PC rv)) as [inst h].
  set (index := Z.to_nat (Z.shiftr (Z.land (u32 inst) INST_6_2) 2)).
  destruct (nth index (opcodes io fp cfg) NULL) as [op |] eqn:Eo;
    [|discriminate].
  assert (Io : In (Some op) (opcodes io fp cfg)).
  { rewrite <- Eo.
    destruct (nth_in_or_default index (opcodes io fp cfg) NULL)
      as [Io | D]; [exact Io | rewrite D in Eo; discriminate]. }
  destruct (op (u32 inst) (set_userdata h rv)) as [[b rv1] |] eqn:Er;
    [|discriminate].
  pose proof (opcodes_keep_cycle io fp cfg op (u32 inst) T Io _ _ _ Er) as K.
  cbn [csr_cycle set_userdata] in K.
  destruct b; [|intros E; injection E as <-; lia].
  assert (Eu : u64 (csr_cycle rv1 + 1) = csr_cycle rv + 1)
    by (rewrite K; unfold u64; apply Z.mod_small; lia).
  intros E. apply IH in E; cbn [csr_cycle set_csr_cycle] in *; lia.
Qed.

(** X7: [rv_step] never counts more cycles than its budget, and never counts
    backwards: from a counter that the budget does not wrap around, the
    counter on return lies between the old value and the old value plus
    [cycles]. *)
Theorem rv_step_within_budget fuel rv cycles rv' :
  traps_keep_cycle io ->
  0 <= csr_cycle rv ->
  0 <= cycles ->
  csr_cycle rv + cycles < 2 ^ 64 ->
  rv_step io fp cfg fuel rv cycles = Returned rv' ->
  csr_cycle rv <= csr_cycle rv' <= csr_cycle rv + cycles.
Proof.
  intros T C0 Hc Hw. unfold rv_step.
  assert (Eu : u64 (csr_cycle rv + cycles) = csr_cycle rv + cycles)
    by (unfold u64; apply Z.mod_small; lia).
  rewrite Eu. apply rv_step_loop_within; try assumption; lia.
Qed.

(** X8: With more fuel than the budget [rv_step] comes to an end: it returns
    or stops in an [assert]. *)
Theorem rv_step_terminates fuel rv cycles :
  traps_keep_cycle io ->
  0 <= csr_cycle rv ->
  0 <= cycles ->
  csr_cycle rv + cycles < 2 ^ 64 ->
  (Z.to_nat cycles < fuel)%nat ->
  rv_step io fp cfg fuel rv cycles = Aborted \/
  exists rv', rv_step io fp cfg fuel rv cycles = Returned rv'.
Proof.
  intros T C0 Hc Hb Hf.
  assert (E : u64 (csr_cycle rv + cycles) = csr_cycle rv + cycles)
    by (unfold u64; apply Z.mod_small; lia).
  pose proof (rv_step_ends io fp cfg fuel rv cycles T C0) as N.
  rewrite E in N.
  replace (csr_cycle rv + cycles - csr_cycle rv) with cycles in N by lia.
  specialize (N Hf).
  destruct (rv_step io fp cfg fuel rv cycles) as [rv' | |].
  - right. exists rv'. reflexivity.
  - left. reflexivity.
  - contradiction.
Qed.

(** X9: With nothing to do [rv_step] returns the hart untouched and calls no
    callback: when an exception is already latched, and when the budget
    is zero. *)
Theorem rv_step_nothing_to_do fuel rv cycles :
  exception rv <> rv_except_none \/
  (cycles = 0 /\ 0 <= csr_cycle rv < 2 ^ 64) ->
  rv_step io fp cfg (S fuel) rv cycles = Returned rv.
Proof.
  intros C. unfold rv_step. apply rv_step_loop_done. unfold running.
  destruct C as [E | [-> R]].
  - apply Z.eqb_neq in E. unfold rv_except_none in E. rewrite E.
    apply andb_false_r.
  - rewrite Z.add_0_r. unfold u64. rewrite Z.mod_small by exact R.
    rewrite Z.ltb_irrefl. reflexivity.
Qed.

(** X10: The slots of the dispatch table that no build fills.  An instruction
    word whose bits [6:2] select one of them stops [rv_step] in
    [assert(op)], after the fetch and before anything of the hart is
    changed. *)
Theorem rv_step_empty_slot fuel rv cycles inst h :
  running (u64 (csr_cycle rv + cycles)) rv = true ->
  mem_ifetch io (userdata rv) (PC rv) = (inst, h) ->
  In (Z.shiftr (Z.land (u32 inst) INST_6_2) 2)
     [2; 6; 7; 10; 14; 15; 21; 22; 23; 26; 29; 30; 31] ->
  rv_step io fp cfg (S fuel) rv cycles = Aborted.
Proof.
  intros R Ef Hi. unfold rv_step. cbn [rv_step_loop]. rewrite R, Ef.
  cbn [In] in Hi.
  repeat match type of Hi with _ \/ _ => destruct Hi as [Hi | Hi] end;
    try contradiction; rewrite <- Hi; reflexivity.
Qed.

(** X11: An extension that is compiled out leaves its slots empty: the word
    of an F, A or FENCE instruction stops [rv_step] in [assert(op)]. *)
Theorem rv_step_extension_compiled_out fuel rv cycles inst h :
  running (u64 (csr_cycle rv + cycles)) rv = true ->
  mem_ifetch io (userdata rv) (PC rv) = (inst, h) ->
  let index := Z.shiftr (Z.land (u32 inst) INST_6_2) 2 in
  (SUPPORT_RV32F cfg = false /\ In index [1; 9; 16; 17; 18; 19; 20]) \/
  (SUPPORT_RV32A cfg = false /\ index = 11) \/
  (SUPPORT_Zifencei cfg = false /\ index = 3) ->
  rv_step io fp cfg (S fuel) rv cycles = Aborted.
Proof.
  intros R Ef index Hi. unfold rv_step. cbn [rv_step_loop]. rewrite R, Ef.
  fold index. unfold opcodes, built.
  destruct Hi as [[N Hi] | [[N Hi] | [N Hi]]]; rewrite N.
  - cbn [In] in Hi.
    repeat match type of Hi with _ \/ _ => destruct Hi as [Hi | Hi] end;
      try contradiction; rewrite <- Hi; reflexivity.
  - rewrite Hi. reflexivity.
  - rewrite Hi. reflexivity.
Qed.

(** X12: The build with the JIT: its [rv_step] returns only with the cycle
    target reached or an exception latched, whatever the JIT does with
    the blocks it is offered. *)
Theorem rv_step_x64_jit_returns_when
    (rv_step_jit : riscv_t H -> Z -> bool * riscv_t H) fuel rv cycles rv' :
  rv_step_x64_jit io fp cfg rv_step_jit fuel rv cycles = Returned rv' ->
  u64 (csr_cycle rv + cycles) <= csr_cycle rv' \/
  exception rv' <> rv_except_none.
Proof.
  unfold rv_step_x64_jit.
  generalize (u64 (csr_cycle rv + cycles)) as cycles_target.
  intros cycles_target. revert rv.
  induction fuel as [| fuel IH]; intros rv; [discriminate|].
  cbn [rv_step_jit_loop].
  destruct (running cycles_target rv) eqn:R.
  - destruct (rv_step_jit rv cycles_target) as [[] rv1]; [apply IH|].
    destruct (rv_step_loop io fp cfg fuel cycles_target rv1) as [rv2 | |];
      [apply IH | discriminate | discriminate].
  - intros E. injection E as <-.
    unfold running in R. apply andb_false_iff in R. destruct R as [R | R].
    + left. apply Z.ltb_ge. exact R.
    + right. apply Z.eqb_neq. exact R.
Qed.

(** A jump to itself, as a program that has finished parks the hart: it
    leaves the program counter, the latch and the cycle counter as they
    were. *)
Lemma op_jal_to_itself inst rv :
  dec_jtype_imm inst = 0 ->
  is_u32 (PC rv) ->
  Z.land (PC rv) 0x3 = 0 ->
  exists rv',
    op_jal inst rv = Some (false, rv') /\
    PC rv' = PC rv /\ exception rv' = exception rv /\
    csr_cycle rv' = csr_cycle rv /\ userdata rv' = userdata rv.
Proof.
  intros Hrel Hpc Ha. unfold op_jal. run_handler. rewrite Hrel, Z.add_0_r.
  rewrite (u32_small _ Hpc).
  destruct (dec_rd inst =? rv_reg_zero); cbv beta iota delta [negb];
    read_fields; rewrite Ha; cbv beta iota delta [Z.eqb negb];
    eexists; (split; [reflexivity|]); repeat split.
Qed.

(** X13: The build with the JIT never returns from a jump to itself that the
    JIT declines to run: the inner loop leaves at the jump without
    counting a cycle, and the outer loop starts it again.  [J] is what
    the host's memory keeps from fetch to fetch, and by which the fetch
    at the program counter finds the jump. *)
Theorem rv_step_x64_jit_spins
    (rv_step_jit : riscv_t H -> Z -> bool * riscv_t H) (J : H -> Prop)
    fuel rv cycles inst :
  (forall rv1 target, rv_step_jit rv1 target = (false, rv1)) ->
  J (userdata rv) ->
  (forall h, J h ->
     fst (mem_ifetch io h (PC rv)) = inst /\
     J (snd (mem_ifetch io h (PC rv)))) ->
  Z.shiftr (Z.land (u32 inst) INST_6_2) 2 = 27 ->
  dec_jtype_imm (u32 inst) = 0 ->
  is_u32 (PC rv) ->
  Z.land (PC rv) 0x3 = 0 ->
  running (u64 (csr_cycle rv + cycles)) rv = true ->
  rv_step_x64_jit io fp cfg rv_step_jit fuel rv cycles = OutOfFuel.
Proof.
  intros Hjit HJ Hfetch Hi Hrel Hpc Ha. unfold rv_step_x64_jit.
  generalize (u64 (csr_cycle rv + cycles)) as cycles_target.
  intros cycles_target R.
  enough (G : forall rv0,
             PC rv0 = PC rv /\ exception rv0 = exception rv /\
             csr_cycle rv0 = csr_cycle rv /\ J (userdata rv0) ->
             rv_step_jit_loop io fp cfg rv_step_jit fuel cycles_target rv0 =
               OutOfFuel)
    by (apply G; repeat split; exact HJ).
  induction fuel as [| fuel IH]; intros rv0 (Ep & Ee & Ec & Eu);
    [reflexivity|].
  assert (R0 : running cycles_target rv0 = true)
    by (unfold running in *; rewrite Ee, Ec; exact R).
  cbn [rv_step_jit_loop]. rewrite R0, Hjit.
  destruct fuel as [| fuel']; [reflexivity|].
  destruct (Hfetch (userdata rv0) Eu) as [Ei Eh]. rewrite <- Ep in Ei, Eh.
  destruct (mem_ifetch io (userdata rv0) (PC rv0)) as [i h] eqn:Ef.
  cbn [fst snd] in Ei, Eh. subst i.
  rewrite (rv_step_loop_turn io fp cfg fuel' _ rv0 inst h op_jal R0 Ef)
    by (rewrite Hi; reflexivity).
  destruct (op_jal_to_itself (u32 inst) (set_userdata h rv0) Hrel)
    as (rv2 & E & Ep2 & Ee2 & Ec2 & Eu2);
    [unfold set_userdata; read_fields; rewrite Ep; assumption ..|].
  unfold set_userdata in Ep2, Ee2, Ec2, Eu2.
  cbn [PC exception csr_cycle userdata] in Ep2, Ee2, Ec2, Eu2.
  rewrite E. apply IH.
  rewrite Ep2, Ee2, Ec2, Eu2. repeat split; assumption.
Qed.

End Budget.

(** ** Integer arithmetic *)

Section Arithmetic.

Context {H : Type}.
Variable cfg : rv_config.

Implicit Types (rv : riscv_t H) (inst : Z).

(** What [op_op] stores into [X[rd]], by group of the switch. *)
Lemma op_op_base inst rv :
  dec_funct7 inst = 0 ->
  dec_rd inst <> rv_reg_zero ->
  In (dec_funct3 inst) [0; 1; 2; 3; 4; 5; 6; 7] ->
  let a := X rv (dec_rs1 inst) in
  let b := X rv (dec_rs2 inst) in
  exists rv',
    op_op cfg inst rv = Some (true, rv') /\
    X rv' (dec_rd inst) =
      match dec_funct3 inst with
      | 0 => u32 (s32 a + s32 b)
      | 1 => u32 (Z.shiftl a (Z.land b 0x1f))
      | 2 => if s32 a <? s32 b then 1 else 0
      | 3 => if a <? b then 1 else 0
      | 4 => Z.lxor a b
      | 5 => Z.shiftr a (Z.land b 0x1f)
      | 6 => Z.lor a b
      | _ => Z.land a b
      end.
Proof.
  intros Hf7 Hrd Hf3 a b. apply Z.eqb_neq in Hrd.
  unfold op_op. run_handler. rewrite Hf7, Hrd. cbn [In] in Hf3.
  repeat match type of Hf3 with _ \/ _ => destruct Hf3 as [E | Hf3] end;
    try contradiction; rewrite <- E; cbv beta iota;
    eexists; (split; [reflexivity|]); read_fields; apply upd_same.
Qed.

Lemma op_op_alternate inst rv :
  dec_funct7 inst = 32 ->
  dec_rd inst <> rv_reg_zero ->
  In (dec_funct3 inst) [0; 5] ->
  let a := X rv (dec_rs1 inst) in
  let b := X rv (dec_rs2 inst) in
  exists rv',
    op_op cfg inst rv = Some (true, rv') /\
    X rv' (dec_rd inst) =
      match dec_funct3 inst with
      | 0 => u32 (s32 a - s32 b)
      | _ => u32 (Z.shiftr (s32 a) (Z.land b 0x1f))
      end.
Proof.
  intros Hf7 Hrd Hf3 a b. apply Z.eqb_neq in Hrd.
  unfold op_op. run_handler. rewrite Hf7, Hrd.
  destruct Hf3 as [E | [E | []]]; rewrite <- E; cbv beta iota;
    eexists; (split; [reflexivity|]); read_fields; apply upd_same.
Qed.

Lemma op_op_multiply inst rv :
  SUPPORT_RV32M cfg = true ->
  dec_funct7 inst = 1 ->
  dec_rd inst <> rv_reg_zero ->
  In (dec_funct3 inst) [0; 1; 2; 3] ->
  let a := X rv (dec_rs1 inst) in
  let b := X rv (dec_rs2 inst) in
  exists rv',
    op_op cfg inst rv = Some (true, rv') /\
    X rv' (dec_rd inst) =
      match dec_funct3 inst with
      | 0 => u32 (s32 a * s32 b)
      | 1 => u32 (Z.shiftr (u64 (s32 a * s32 b)) 32)
      | 2 => u32 (Z.shiftr (u64 (s32 a * b)) 32)
      | _ => u32 (Z.shiftr (u64 (a * b)) 32)
      end.
Proof.
  intros HM Hf7 Hrd Hf3 a b. apply Z.eqb_neq in Hrd.
  unfold op_op. run_handler. rewrite Hf7, HM, Hrd.
  destruct Hf3 as [E | [E | [E | [E | []]]]]; rewrite <- E; cbv beta iota;
    eexists; (split; [reflexivity|]); read_fields; apply upd_same.
Qed.

Lemma u32_mul_congruent x y x' y' :
  u32 x = u32 x' -> u32 y = u32 y' -> u32 (x * y) = u32 (x' * y').
Proof.
  unfold u32. intros Ex Ey.
  rewrite (Z.mul_mod x y), (Z.mul_mod x' y'), Ex, Ey by lia. reflexivity.
Qed.

Lemma high_word_signed p :
  - 2 ^ 63 <= p < 2 ^ 63 ->
  s32 (u32 (Z.shiftr (u64 p) 32)) = p / 2 ^ 32.
Proof.
  intros R. rewrite Z.shiftr_div_pow2 by lia. unfold s32, u32, u64.
  Z.to_euclidean_division_equations. lia.
Qed.

Lemma high_word_unsigned p :
  0 <= p < 2 ^ 64 -> u32 (Z.shiftr (u64 p) 32) = p / 2 ^ 32.
Proof.
  intros R. rewrite Z.shiftr_div_pow2 by lia. unfold u32, u64.
  Z.to_euclidean_division_equations. lia.
Qed.

Lemma split_word p : p = p / 2 ^ 32 * 2 ^ 32 + u32 p.
Proof. unfold u32. Z.to_euclidean_division_equations. lia. Qed.

(** X14: MUL and the three high-word multiplications make up the 64-bit
    product: from the same operands, the high word (read as signed for
    MULH and MULHSU) times 2^32 plus the word MUL gives is the product of
    the operands, each read as its instruction reads it. *)
Theorem op_op_mul_high_low ilo ihi rv :
  SUPPORT_RV32M cfg = true ->
  dec_funct7 ilo = 1 -> dec_funct3 ilo = 0 ->
  dec_funct7 ihi = 1 -> In (dec_funct3 ihi) [1; 2; 3] ->
  dec_rs1 ihi = dec_rs1 ilo -> dec_rs2 ihi = dec_rs2 ilo ->
  dec_rd ilo <> rv_reg_zero -> dec_rd ihi <> rv_reg_zero ->
  is_u32 (X rv (dec_rs1 ilo)) -> is_u32 (X rv (dec_rs2 ilo)) ->
  let a := X rv (dec_rs1 ilo) in
  let b := X rv (dec_rs2 ilo) in
  exists rlo rhi,
    op_op cfg ilo rv = Some (true, rlo) /\
    op_op cfg ihi rv = Some (true, rhi) /\
    let lo := X rlo (dec_rd ilo) in
    let hi := X rhi (dec_rd ihi) in
    match dec_funct3 ihi with
    | 1 => s32 a * s32 b = s32 hi * 2 ^ 32 + lo
    | 2 => s32 a * b = s32 hi * 2 ^ 32 + lo
    | _ => a * b = hi * 2 ^ 32 + lo
    end.
Proof.
  intros HM L7 L3 H7 H3 E1 E2 Nl Nh Ra Rb a b.
  destruct (op_op_multiply ilo rv HM L7 Nl) as (rlo & El & Vl);
    [rewrite L3; simpl; tauto|].
  destruct (op_op_multiply ihi rv HM H7 Nh) as (rhi & Eh & Vh);
    [cbn [In] in *; tauto|].
  exists rlo, rhi. split; [exact El|]. split; [exact Eh|].
  cbv zeta. rewrite Vl, Vh, L3, E1, E2. fold a b.
  pose proof (s32_range a) as Sa. pose proof (s32_range b) as Sb.
  assert (Ea : u32 (s32 a) = u32 a) by apply u32_s32.
  assert (Eb : u32 (s32 b) = u32 b) by apply u32_s32.
  unfold is_u32 in Ra, Rb. fold a in Ra. fold b in Rb.
  destruct H3 as [E | [E | [E | []]]]; rewrite <- E.
  - rewrite high_word_signed by nia. apply split_word.
  - rewrite high_word_signed by nia.
    rewrite (u32_mul_congruent (s32 a) (s32 b) (s32 a) b) by congruence.
    apply split_word.
  - rewrite high_word_unsigned by nia.
    rewrite (u32_mul_congruent (s32 a) (s32 b) a b) by assumption.
    apply split_word.
Qed.

Lemma div_rem_identity a b :
  is_u32 a -> is_u32 b ->
  u32 (s32 b * s32 (rv_div a b) + s32 (rv_rem a b)) = a.
Proof.
  intros Ra Rb.
  destruct (Z.eq_dec b 0) as [-> | Nb].
  - rewrite rv_rem_by_zero by assumption. change (s32 0) with 0.
    rewrite Z.mul_0_l, Z.add_0_l, u32_s32. apply u32_small. assumption.
  - destruct (Z.eq_dec a 0x80000000) as [Ea | Na];
      [destruct (Z.eq_dec b 0xffffffff) as [Eb | Nb']; [subst; reflexivity|]|];
      (destruct (rv_div_regular a b Ra Rb Nb) as [_ Eq]; [tauto|]);
      (destruct (rv_rem_regular a b Ra Rb Nb) as [_ Er]; [tauto|]);
      rewrite Eq, Er, <- Z.quot_rem', u32_s32; apply u32_small; assumption.
Qed.

Lemma divu_remu_identity a b :
  is_u32 a -> is_u32 b -> u32 (b * rv_divu a b + rv_remu a b) = a.
Proof.
  intros Ra Rb.
  destruct (Z.eq_dec b 0) as [-> | Nb].
  - rewrite rv_remu_by_zero, Z.mul_0_l, Z.add_0_l.
    apply u32_small. assumption.
  - rewrite rv_divu_regular, rv_remu_regular by assumption.
    rewrite <- Z.div_mod by assumption. apply u32_small. assumption.
Qed.

(** X15: Quotient and remainder always recombine: from the same operands,
    divisor times the result of DIV plus the result of REM is the
    dividend modulo 2^32, division by zero and the signed overflow
    included; and so for DIVU and REMU. *)
Theorem op_op_div_rem_recombine iq ir rv :
  SUPPORT_RV32M cfg = true ->
  dec_funct7 iq = 1 -> dec_funct7 ir = 1 ->
  (dec_funct3 iq = 4 /\ dec_funct3 ir = 6) \/
  (dec_funct3 iq = 5 /\ dec_funct3 ir = 7) ->
  dec_rs1 ir = dec_rs1 iq -> dec_rs2 ir = dec_rs2 iq ->
  dec_rd iq <> rv_reg_zero -> dec_rd ir <> rv_reg_zero ->
  is_u32 (X rv (dec_rs1 iq)) -> is_u32 (X rv (dec_rs2 iq)) ->
  let a := X rv (dec_rs1 iq) in
  let b := X rv (dec_rs2 iq) in
  exists rq rr,
    op_op cfg iq rv = Some (true, rq) /\
    op_op cfg ir rv = Some (true, rr) /\
    let q := X rq (dec_rd iq) in
    let r := X rr (dec_rd ir) in
    if dec_funct3 iq =? 4 then u32 (s32 b * s32 q + s32 r) = a
    else u32 (b * q + r) = a.
Proof.
  intros HM Q7 R7 F3 E1 E2 Nq Nr Ra Rb a b.
  destruct (op_op_division cfg iq rv HM Q7 Nq) as (rq & Eq & _ & Vq);
    [cbn [In]; destruct F3 as [[-> _] | [-> _]]; tauto|].
  destruct (op_op_division cfg ir rv HM R7 Nr) as (rr & Er & _ & Vr);
    [cbn [In]; destruct F3 as [[_ ->] | [_ ->]]; tauto|].
  exists rq, rr. split; [exact Eq|]. split; [exact Er|].
  cbv zeta. rewrite Vq, Vr, E1, E2. fold a b.
  destruct F3 as [[-> ->] | [-> ->]]; cbv beta iota;
    [change (4 =? 4) with true | change (5 =? 4) with false]; cbv iota.
  - apply div_rem_identity; assumption.
  - apply divu_remu_identity; assumption.
Qed.

(** X16: ADD and SUB are addition and subtraction modulo 2^32: the casts to
    [int32_t] leave no trace in the result. *)
Theorem op_op_add_sub_modular inst rv :
  (dec_funct7 inst = 0 \/ dec_funct7 inst = 32) ->
  dec_funct3 inst = 0 ->
  dec_rd inst <> rv_reg_zero ->
  let a := X rv (dec_rs1 inst) in
  let b := X rv (dec_rs2 inst) in
  exists rv',
    op_op cfg inst rv = Some (true, rv') /\
    X rv' (dec_rd inst) =
      if dec_funct7 inst =? 0 then (a + b) mod 2 ^ 32
      else (a - b) mod 2 ^ 32.
Proof.
  intros [F7 | F7] F3 Hrd a b.
  - destruct (op_op_base inst rv F7 Hrd) as (rv' & E & V);
      [rewrite F3; simpl; tauto|].
    exists rv'. split; [exact E|]. rewrite V, F3, F7. fold a b.
    change (0 =? 0) with true. cbv iota.
    change ((a + b) mod 2 ^ 32) with (u32 (a + b)). unfold u32.
    rewrite Z.add_mod by lia. fold (u32 (s32 a)) (u32 (s32 b)).
    rewrite !u32_s32. unfold u32. rewrite <- Z.add_mod by lia. reflexivity.
  - destruct (op_op_alternate inst rv F7 Hrd) as (rv' & E & V);
      [rewrite F3; simpl; tauto|].
    exists rv'. split; [exact E|]. rewrite V, F3, F7. fold a b.
    change (32 =? 0) with false. cbv iota.
    unfold u32. rewrite Zminus_mod. fold (u32 (s32 a)) (u32 (s32 b)).
    rewrite !u32_s32. unfold u32. rewrite <- Zminus_mod. reflexivity.
Qed.

Lemma land_31_mod_32 z : Z.land z 0x1f = z mod 32.
Proof. change 0x1f with (Z.ones 5). apply Z.land_ones. lia. Qed.

(** X17: The register shifts use the shift source modulo 32: with [k] the
    value of [X[rs2]] modulo 32, SLL multiplies by [2^k] modulo 2^32, SRL
    divides the unsigned value by [2^k], and SRA divides the signed value
    by [2^k], rounding down. *)
Theorem op_op_shift_amount inst rv :
  (dec_funct7 inst = 0 /\ In (dec_funct3 inst) [1; 5]) \/
  (dec_funct7 inst = 32 /\ dec_funct3 inst = 5) ->
  dec_rd inst <> rv_reg_zero ->
  let a := X rv (dec_rs1 inst) in
  let k := X rv (dec_rs2 inst) mod 32 in
  exists rv',
    op_op cfg inst rv = Some (true, rv') /\
    X rv' (dec_rd inst) =
      if dec_funct7 inst =? 32 then (s32 a / 2 ^ k) mod 2 ^ 32
      else if dec_funct3 inst =? 1 then (a * 2 ^ k) mod 2 ^ 32
      else a / 2 ^ k.
Proof.
  intros C Hrd a k.
  assert (Hk : 0 <= k) by (apply Z.mod_pos_bound; lia).
  destruct C as [[F7 F3] | [F7 F3]].
  - destruct (op_op_base inst rv F7 Hrd) as (rv' & E & V);
      [cbn [In] in *; tauto|].
    exists rv'. split; [exact E|]. rewrite V, F7, land_31_mod_32. fold a k.
    change (0 =? 32) with false. cbv iota.
    destruct F3 as [F3 | [F3 | []]]; rewrite <- F3; cbv beta iota.
    + change (1 =? 1) with true. cbv iota.
      rewrite Z.shiftl_mul_pow2 by exact Hk. reflexivity.
    + change (5 =? 1) with false. cbv iota.
      apply Z.shiftr_div_pow2. exact Hk.
  - destruct (op_op_alternate inst rv F7 Hrd) as (rv' & E & V);
      [rewrite F3; simpl; tauto|].
    exists rv'. split; [exact E|]. rewrite V, F7, F3, land_31_mod_32.
    fold a k. change (32 =? 32) with true. cbv iota.
    rewrite Z.shiftr_div_pow2 by exact Hk. reflexivity.
Qed.

End Arithmetic.

(** ** Loads, jumps and the A and F extensions *)

Section MoreHandlers.

Context {H : Type}.
Variable io : riscv_io_t H.
Variable fp : fp_host.

Implicit Types (rv : riscv_t H) (inst : Z).

Lemma sign_extend_b_value v :
  sign_extend_b (u8 v) =
    if 2 ^ 7 <=? u8 v then u8 v + 2 ^ 32 - 2 ^ 8 else u8 v.
Proof.
  unfold sign_extend_b, s8, u32, u8.
  destruct (Z.leb_spec (2 ^ 7) (v mod 2 ^ 8));
    Z.to_euclidean_division_equations; lia.
Qed.

Lemma sign_extend_h_value v :
  sign_extend_h (u16 v) =
    if 2 ^ 15 <=? u16 v then u16 v + 2 ^ 32 - 2 ^ 16 else u16 v.
Proof.
  unfold sign_extend_h, s16, u32, u16.
  destruct (Z.leb_spec (2 ^ 15) (v mod 2 ^ 16));
    Z.to_euclidean_division_equations; lia.
Qed.

(** X18: A load reads once, at [X[rs1] + imm] modulo 2^32, through the
    callback of its width, and stores the value into [X[rd]]: as it is
    for LBU, LHU and LW, with the bits above it set when its top bit is
    set for LB and LH. *)
Theorem op_load_extension inst rv :
  In (dec_funct3 inst) [0; 1; 2; 4; 5] ->
  dec_rd inst <> rv_reg_zero ->
  let addr := u32 (X rv (dec_rs1 inst) + dec_itype_imm inst) in
  let width := match dec_funct3 inst with 0 | 4 => 8 | 1 | 5 => 16 | _ => 32 end in
  let read :=
    match dec_funct3 inst with
    | 0 | 4 => mem_read_b io
    | 1 | 5 => mem_read_s io
    | _ => mem_read_w io
    end (userdata rv) addr in
  let v := fst read mod 2 ^ width in
  exists rv',
    op_load io inst rv = Some (true, rv') /\
    userdata rv' = snd read /\
    PC rv' = u32 (PC rv + 4) /\
    X rv' (dec_rd inst) =
      if (dec_funct3 inst <? 2) && (2 ^ (width - 1) <=? v)
      then v + 2 ^ 32 - 2 ^ width
      else v.
Proof.
  intros Hf3 Hrd. apply Z.eqb_neq in Hrd.
  unfold op_load. run_handler. rewrite Hrd. cbn [In] in Hf3.
  repeat match type of Hf3 with _ \/ _ => destruct Hf3 as [E | Hf3] end;
    try contradiction; rewrite <- E; cbv beta iota zeta;
    match goal with
    | |- context [let (_, _) := ?c in _] => destruct c as [v h]
    end;
    cbv beta iota; eexists; (split; [reflexivity|]); read_fields;
    rewrite upd_same; cbn [fst snd];
    (split; [reflexivity|]); (split; [reflexivity|]).
  - rewrite sign_extend_b_value. reflexivity.
  - rewrite sign_extend_h_value. reflexivity.
  - reflexivity.
  - reflexivity.
  - reflexivity.
Qed.

(** X19: JAL: the program counter moves by the J-immediate modulo 2^32, the
    link [PC + 4] goes into [X[rd]] unless [rd] is x0, in which case no
    register changes, and instruction-misaligned is latched exactly when
    the target has one of its low two bits set.  The link is stored
    either way. *)
Theorem op_jal_link_and_target inst rv :
  exists rv',
    op_jal inst rv = Some (false, rv') /\
    PC rv' = u32 (PC rv + dec_jtype_imm inst) /\
    X rv' =
      (if dec_rd inst =? rv_reg_zero then X rv
       else upd (X rv) (dec_rd inst) (u32 (PC rv + 4))) /\
    exception rv' =
      (if Z.land (PC rv') 0x3 =? 0 then exception rv
       else rv_except_inst_misaligned).
Proof.
  unfold op_jal. run_handler.
  destruct (dec_rd inst =? rv_reg_zero); cbv beta iota delta [negb];
    read_fields;
    destruct (Z.land (u32 (PC rv + dec_jtype_imm inst)) 3 =? 0) eqn:A;
    cbv beta iota; eexists; (split; [reflexivity|]); read_fields;
    rewrite A; repeat split.
Qed.

Lemma land_clear_bit0_low2 w : Z.land (Z.land w 0xfffffffe) 0x3 = Z.land w 2.
Proof. rewrite <- Z.land_assoc. reflexivity. Qed.

Lemma land_2_testbit w : (Z.land w 2 =? 0) = negb (Z.testbit w 1).
Proof.
  change 2 with (Z.shiftl (Z.ones 1) 1) at 1.
  rewrite land_field by lia. rewrite (Z.testbit_eqb w 1) by lia.
  destruct (Z.eqb_spec ((w / 2 ^ 1) mod 2) 1) as [E | E];
    destruct (Z.eqb_spec ((w / 2 ^ 1) mod 2 ^ 1 * 2 ^ 1) 0) as [E' | E'];
    try reflexivity; exfalso; revert E E';
    Z.to_euclidean_division_equations; lia.
Qed.

(** X20: JALR never leaves an odd program counter.  It latches
    instruction-misaligned exactly when bit 1 of [X[rs1] + imm] is set,
    and leaves the latch alone otherwise. *)
Theorem op_jalr_alignment inst rv :
  exists rv',
    op_jalr inst rv = Some (false, rv') /\
    Z.testbit (PC rv') 0 = false /\
    exception rv' =
      (if Z.testbit (X rv (dec_rs1 inst) + dec_itype_imm inst) 1
       then rv_except_inst_misaligned
       else exception rv).
Proof.
  unfold op_jalr. run_handler. change (not32 1) with 0xfffffffe.
  set (t := X rv (dec_rs1 inst) + dec_itype_imm inst).
  assert (B : Z.testbit (u32 t) 1 = Z.testbit t 1)
    by (unfold u32; apply Z.mod_pow2_bits_low; lia).
  destruct (negb (dec_rd inst =? rv_reg_zero)); cbv beta iota; read_fields;
    rewrite land_clear_bit0_low2, land_2_testbit, B, Bool.negb_involutive;
    destruct (Z.testbit t 1); cbv beta iota;
    eexists; (split; [reflexivity|]); read_fields;
    (split; [|reflexivity]);
    rewrite Z.land_spec; apply andb_false_r.
Qed.

(** X21: LR.W and SC.W use the address [X[rs1]] and the word callbacks.  LR.W
    puts the word read into [X[rd]].  SC.W writes [X[rs2]] and always
    reports success: it puts 0 into [X[rd]], whether or not an LR.W came
    before. *)
Theorem op_amo_lr_sc inst rv :
  let funct5 := Z.land (Z.shiftr (dec_funct7 inst) 2) 0x1f in
  let addr := X rv (dec_rs1 inst) in
  (funct5 = 2 ->
   dec_rd inst <> rv_reg_zero ->
   exists rv',
     op_amo io inst rv = Some (true, rv') /\
     userdata rv' = snd (mem_read_w io (userdata rv) addr) /\
     X rv' (dec_rd inst) = u32 (fst (mem_read_w io (userdata rv) addr))) /\
  (funct5 = 3 ->
   exists rv',
     op_amo io inst rv = Some (true, rv') /\
     userdata rv' =
       mem_write_w io (userdata rv) addr (u32 (X rv (dec_rs2 inst))) /\
     X rv' (dec_rd inst) = 0).
Proof.
  cbv zeta. split; intros F5.
  - intros Hrd. apply Z.eqb_neq in Hrd.
    unfold op_amo. run_handler. rewrite F5, Hrd. cbv beta iota.
    destruct (mem_read_w io (userdata rv) (X rv (dec_rs1 inst))) as [v h].
    cbv beta iota. eexists. split; [reflexivity|]. read_fields.
    rewrite upd_same. split; reflexivity.
  - unfold op_amo. run_handler. rewrite F5. cbv beta iota.
    destruct (Z.eqb_spec (dec_rd inst) rv_reg_zero) as [E | N];
      cbv beta iota; eexists; (split; [reflexivity|]); read_fields;
      (split; [reflexivity|]); rewrite ?E; apply upd_same.
Qed.

(** X22: Moving a bit pattern to the other register file and back gives it
    back: FMV.W.X then FMV.X.W returns the integer register, FMV.X.W then
    FMV.W.X returns the F register, whatever the registers in between. *)
Theorem op_fp_fmv_round_trip i1 i2 rv :
  dec_rs1 i2 = dec_rd i1 ->
  (dec_funct7 i1 = 120 ->
   dec_funct7 i2 = 112 -> dec_funct3 i2 = 0 ->
   exists rv',
     bind (op_fp fp i1) (fun _ => op_fp fp i2) rv = Some (true, rv') /\
     X rv' (dec_rd i2) = X rv (dec_rs1 i1)) /\
  (dec_funct7 i1 = 112 -> dec_funct3 i1 = 0 ->
   dec_funct7 i2 = 120 ->
   exists rv',
     bind (op_fp fp i1) (fun _ => op_fp fp i2) rv = Some (true, rv') /\
     F rv' (dec_rd i2) = F rv (dec_rs1 i1)).
Proof.
  intros E. split.
  - intros A B C. unfold op_fp. run_handler. rewrite A, B, C, E.
    cbv beta iota. read_fields. rewrite upd_same.
    eexists. split; [reflexivity|]. read_fields. apply upd_same.
  - intros A B C. unfold op_fp. run_handler. rewrite A, B, C, E.
    cbv beta iota. read_fields. rewrite upd_same.
    eexists. split; [reflexivity|]. read_fields. apply upd_same.
Qed.

Lemma testbit_sign_mask i : 0 <= i -> Z.testbit FMASK_SIGN i = (i =? 31).
Proof.
  intros Hi. change FMASK_SIGN with (2 ^ 31).
  rewrite Z.pow2_bits_eqb by lia. apply Z.eqb_sym.
Qed.

Lemma testbit_magnitude_mask i :
  0 <= i -> Z.testbit 0x7fffffff i = (i <? 31).
Proof.
  intros Hi. change 0x7fffffff with (Z.ones 31).
  apply Z.testbit_ones_nonneg; lia.
Qed.

(** X23: The sign-injection instructions: the result has the exponent and
    fraction of [F[rs1]], and for its sign bit that of [F[rs2]]
    (FSGNJ.S), its complement (FSGNJN.S), or the exclusive or of the two
    sign bits (FSGNJX.S).  Nothing else of the hart changes but [PC]. *)
Theorem op_fp_sign_injection inst rv :
  dec_funct7 inst = 16 ->
  In (dec_funct3 inst) [0; 1; 2] ->
  let f1 := F rv (dec_rs1 inst) in
  let f2 := F rv (dec_rs2 inst) in
  exists rv',
    op_fp fp inst rv = Some (true, rv') /\
    X rv' = X rv /\
    Z.land (F rv' (dec_rd inst)) 0x7fffffff = Z.land f1 0x7fffffff /\
    Z.testbit (F rv' (dec_rd inst)) 31 =
      match dec_funct3 inst with
      | 0 => Z.testbit f2 31
      | 1 => negb (Z.testbit f2 31)
      | _ => xorb (Z.testbit f1 31) (Z.testbit f2 31)
      end.
Proof.
  intros F7 F3 f1 f2.
  unfold op_fp. run_handler. rewrite F7. fold f1 f2.
  change (not32 FMASK_SIGN) with 0x7fffffff.
  assert (N : Z.testbit (not32 f2) 31 = negb (Z.testbit f2 31)).
  { unfold not32, u32. rewrite Z.mod_pow2_bits_low by lia.
    apply Z.lnot_spec. lia. }
  destruct F3 as [E | [E | [E | []]]]; rewrite <- E; cbv beta iota;
    eexists; (split; [reflexivity|]); read_fields; rewrite upd_same;
    (split; [reflexivity|]); split.
  - apply Z.bits_inj'. intros i Hi.
    rewrite !Z.land_spec, Z.lor_spec, !Z.land_spec.
    rewrite testbit_sign_mask, testbit_magnitude_mask by exact Hi.
    destruct (Z.ltb_spec i 31), (Z.eqb_spec i 31); try lia;
      rewrite ?andb_false_r, ?andb_true_r, ?orb_false_r; reflexivity.
  - rewrite Z.lor_spec, !Z.land_spec.
    rewrite testbit_sign_mask, testbit_magnitude_mask by lia.
    change (31 <? 31) with false. change (31 =? 31) with true.
    rewrite andb_false_r, andb_true_r. reflexivity.
  - apply Z.bits_inj'. intros i Hi.
    rewrite !Z.land_spec, Z.lor_spec, !Z.land_spec.
    rewrite testbit_sign_mask, testbit_magnitude_mask by exact Hi.
    destruct (Z.ltb_spec i 31), (Z.eqb_spec i 31); try lia;
      rewrite ?andb_false_r, ?andb_true_r, ?orb_false_r; reflexivity.
  - rewrite Z.lor_spec, !Z.land_spec, N.
    rewrite testbit_sign_mask, testbit_magnitude_mask by lia.
    change (31 <? 31) with false. change (31 =? 31) with true.
    rewrite andb_false_r, andb_true_r. reflexivity.
  - apply Z.bits_inj'. intros i Hi.
    rewrite !Z.land_spec, Z.lxor_spec, !Z.land_spec.
    rewrite testbit_sign_mask, testbit_magnitude_mask by exact Hi.
    destruct (Z.ltb_spec i 31), (Z.eqb_spec i 31); try lia;
      rewrite ?andb_false_r, ?andb_true_r, ?xorb_false_r; reflexivity.
  - rewrite Z.lxor_spec, Z.land_spec.
    rewrite testbit_sign_mask by lia.
    change (31 =? 31) with true. rewrite andb_true_r. reflexivity.
Qed.

(** X24: The encodings the handlers have no case for run into
    [assert(!"unreachable")]: the load widths 3, 6 and 7, the store
    widths above 2, the branch conditions 2 and 3, and in [op_op] every
    funct7 but 0, 1 and 32, funct7 32 with a funct3 other than 0 and 5,
    and funct7 1 when the M extension is compiled out. *)
Theorem reserved_encodings_assert (cfg : rv_config) inst rv :
  (In (dec_funct3 inst) [3; 6; 7] -> op_load io inst rv = None) /\
  (In (dec_funct3 inst) [3; 4; 5; 6; 7] -> op_store io inst rv = None) /\
  (In (dec_funct3 inst) [2; 3] -> op_branch inst rv = None) /\
  (dec_funct7 inst = 32 -> In (dec_funct3 inst) [1; 2; 3; 4; 6; 7] ->
   op_op cfg inst rv = None) /\
  (dec_funct7 inst = 1 -> SUPPORT_RV32M cfg = false ->
   op_op cfg inst rv = None) /\
  (~ In (dec_funct7 inst) [0; 1; 32] -> op_op cfg inst rv = None) /\
  (dec_funct3 inst = 4 -> op_system io cfg inst rv = None) /\
  (SUPPORT_Zicsr cfg = false -> In (dec_funct3 inst) [1; 2; 3; 5; 6; 7] ->
   op_system io cfg inst rv = None).
Proof.
  split_all.
  - intros Hi. unfold op_load. run_handler. cbn [In] in Hi.
    repeat destruct Hi as [Hi | Hi]; try contradiction;
      rewrite <- Hi; reflexivity.
  - intros Hi. unfold op_store. run_handler. cbn [In] in Hi.
    repeat destruct Hi as [Hi | Hi]; try contradiction;
      rewrite <- Hi; reflexivity.
  - intros Hi. unfold op_branch. run_handler. cbn [In] in Hi.
    repeat destruct Hi as [Hi | Hi]; try contradiction;
      rewrite <- Hi; reflexivity.
  - intros H7 Hi. unfold op_op. run_handler. rewrite H7. cbn [In] in Hi.
    repeat destruct Hi as [Hi | Hi]; try contradiction;
      rewrite <- Hi; reflexivity.
  - intros H7 Hm. unfold op_op. run_handler. rewrite H7, Hm. reflexivity.
  - intros Hn. unfold op_op. run_handler.
    destruct (dec_funct7 inst) as [| p | p]; [| | reflexivity].
    + exfalso. apply Hn. left. reflexivity.
    + repeat match goal with
        | |- _ => reflexivity
        | |- _ => solve [exfalso; apply Hn; cbn [In]; tauto]
        | q : positive |- _ => destruct q
        end.
  - intros Hi. unfold op_system. run_handler. rewrite Hi. reflexivity.
  - intros Hz Hi. unfold op_system. run_handler. rewrite Hz. cbn [In] in Hi.
    repeat destruct Hi as [Hi | Hi]; try contradiction;
      rewrite <- Hi; reflexivity.
Qed.

(** X25: CSRRWI, CSRRSI and CSRRCI are decoded and skipped: no CSR and no
    register changes, the host is not called, and the program counter
    moves on. *)
Theorem op_system_csr_immediates_skipped (cfg : rv_config) inst rv :
  SUPPORT_Zicsr cfg = true ->
  In (dec_funct3 inst) [5; 6; 7] ->
  dec_rd inst <> rv_reg_zero ->
  exists rv',
    op_system io cfg inst rv = Some (true, rv') /\
    X rv' = X rv /\ F rv' = F rv /\
    csr_cycle rv' = csr_cycle rv /\
    csr_mstatus rv' = csr_mstatus rv /\
    csr_fcsr rv' = csr_fcsr rv /\
    exception rv' = exception rv /\
    userdata rv' = userdata rv /\
    PC rv' = u32 (PC rv + 4).
Proof.
  intros Hz Hi Hrd. apply Z.eqb_neq in Hrd.
  unfold op_system. run_handler. rewrite Hz, Hrd. cbn [In] in Hi.
  repeat destruct Hi as [Hi | Hi]; try contradiction; rewrite <- Hi;
    cbv beta iota; eexists; (split; [reflexivity|]); repeat split.
Qed.

(** X26: FLW and FSW move the 32 bits as they are: FLW puts the word read at
    [X[rs1] + imm] into [F[rd]], FSW hands [F[rs2]] to the word-write
    callback; neither changes an integer register. *)
Theorem op_fp_load_store inst rv :
  (let addr := u32 (X rv (dec_rs1 inst) + dec_itype_imm inst) in
   exists rv',
     op_load_fp io inst rv = Some (true, rv') /\
     F rv' (dec_rd inst) = u32 (fst (mem_read_w io (userdata rv) addr)) /\
     userdata rv' = snd (mem_read_w io (userdata rv) addr) /\
     X rv' = X rv /\ PC rv' = u32 (PC rv + 4)) /\
  (let addr := u32 (X rv (dec_rs1 inst) + dec_stype_imm inst) in
   exists rv',
     op_store_fp io inst rv = Some (true, rv') /\
     userdata rv' =
       mem_write_w io (userdata rv) addr (u32 (F rv (dec_rs2 inst))) /\
     F rv' = F rv /\ X rv' = X rv /\ PC rv' = u32 (PC rv + 4)).
Proof.
  split; cbv zeta.
  - unfold op_load_fp. run_handler.
    destruct (mem_read_w io (userdata rv) _) as [v h]. cbv beta iota.
    eexists. split; [reflexivity|]. read_fields. rewrite upd_same.
    repeat split.
  - unfold op_store_fp. run_handler.
    eexists. split; [reflexivity|]. repeat split.
Qed.

(** X27: ECALL and EBREAK: the hook is called once, with the hart as the
    instruction found it and the address of the instruction; the program
    counter is advanced by 4 from where the hook left it, and x0 is
    cleared after the hook when the rd field of the word is 0.  Whatever
    else the hook did to the hart stays. *)
Theorem op_system_traps (cfg : rv_config) inst rv :
  dec_funct3 inst = 0 ->
  In (dec_itype_imm inst) [0; 1] ->
  let hook := if dec_itype_imm inst =? 0 then on_ecall io else on_ebreak io in
  let rv1 := hook rv (PC rv) inst in
  exists rv',
    op_system io cfg inst rv = Some (true, rv') /\
    PC rv' = u32 (PC rv1 + 4) /\
    X rv' =
      (if dec_rd inst =? rv_reg_zero then upd (X rv1) rv_reg_zero 0
       else X rv1) /\
    F rv' = F rv1 /\
    csr_cycle rv' = csr_cycle rv1 /\
    csr_mstatus rv' = csr_mstatus rv1 /\
    exception rv' = exception rv1 /\
    userdata rv' = userdata rv1.
Proof.
  intros F3 Hi. unfold op_system. run_handler. rewrite F3.
  destruct Hi as [E | [E | []]]; rewrite <- E; cbv beta iota;
    destruct (dec_rd inst =? rv_reg_zero); cbv beta iota;
    eexists; (split; [reflexivity|]); repeat split.
Qed.

(** X28: The immediate forms: ADDI adds the immediate modulo 2^32; the shifts
    use the immediate modulo 32 as the amount, SLLI multiplying modulo
    2^32, and the right shift dividing the signed value (rounding down)
    when the immediate has a bit set above its low five, the unsigned
    value otherwise. *)
Theorem op_op_imm_arithmetic inst rv :
  In (dec_funct3 inst) [0; 1; 5] ->
  dec_rd inst <> rv_reg_zero ->
  let a := X rv (dec_rs1 inst) in
  let imm := dec_itype_imm inst in
  let k := imm mod 32 in
  exists rv',
    op_op_imm inst rv = Some (true, rv') /\
    X rv' (dec_rd inst) =
      match dec_funct3 inst with
      | 0 => (a + imm) mod 2 ^ 32
      | 1 => (a * 2 ^ k) mod 2 ^ 32
      | _ => if Z.land imm (Z.lnot 0x1f) =? 0 then a / 2 ^ k
             else (s32 a / 2 ^ k) mod 2 ^ 32
      end.
Proof.
  intros Hf3 Hrd a imm k. apply Z.eqb_neq in Hrd.
  assert (Hk : 0 <= k) by (apply Z.mod_pos_bound; lia).
  unfold op_op_imm. run_handler. rewrite Hrd. fold a imm.
  rewrite !land_31_mod_32. fold k.
  destruct Hf3 as [E | [E | [E | []]]]; rewrite <- E; cbv beta iota.
  - eexists. split; [reflexivity|]. read_fields. rewrite upd_same.
    unfold u32. rewrite Z.add_mod by lia. fold (u32 (s32 a)).
    rewrite u32_s32. unfold u32. rewrite Z.add_mod_idemp_l by lia.
    rewrite Z.add_mod_idemp_r by lia. reflexivity.
  - eexists. split; [reflexivity|]. read_fields. rewrite upd_same.
    rewrite Z.shiftl_mul_pow2 by exact Hk. reflexivity.
  - destruct (Z.land imm (Z.lnot 31) =? 0); cbv beta iota delta [negb];
      eexists; (split; [reflexivity|]); read_fields; rewrite upd_same;
      rewrite Z.shiftr_div_pow2 by exact Hk; reflexivity.
Qed.

End MoreHandlers.

(** X29: A hart fresh from [rv_create]: program counter 0, every integer
    register zero but the stack pointer, every F register and every CSR
    zero, nothing latched, the host context as given; the latch agrees
    with the program counter and x0 is zero, so the properties of
    [rv_step] above apply to it. *)
Theorem rv_create_fresh {H : Type} (cfg : rv_config) (stack_top : Z) (h : H) :
  let rv := rv_create cfg stack_top h in
  PC rv = 0 /\
  (forall i, X rv i = if i =? rv_reg_sp then stack_top else 0) /\
  (forall i, F rv i = 0) /\
  csr_cycle rv = 0 /\ csr_mstatus rv = 0 /\ csr_fcsr rv = 0 /\
  exception rv = rv_except_none /\
  userdata rv = h /\
  latch_consistent rv /\ x0_zero rv.
Proof.
  unfold rv_create, rv_reset.
  destruct (SUPPORT_RV32F cfg); split_all; try reflexivity;
    solve [ intros; reflexivity | left; split; reflexivity ].
Qed.

(** ** The properties on the programs of the host *)

Section MoreScenarios.

Import Host Programs.

(** The trap hooks of the host write its trace and nothing else. *)
Lemma host_traps_keep (I : riscv_t t -> Prop) :
  (forall rv h, I rv -> I (set_userdata h rv)) -> traps_keep io I.
Proof. intros HI rv pc inst Hk. split; apply HI; exact Hk. Qed.

Lemma host_traps_keep_cycle : traps_keep_cycle io.
Proof. intros rv pc inst. split; reflexivity. Qed.

Lemma host_traps_keep_fetchable : traps_keep io fetchable.
Proof. apply host_traps_keep. intros rv h Hk. exact Hk. Qed.

Lemma host_traps_keep_x0 : traps_keep io x0_zero.
Proof. apply host_traps_keep. intros rv h Hk. exact Hk. Qed.

Lemma host_traps_keep_readonly c f : traps_keep io (readonly_csrs c f).
Proof. apply host_traps_keep. intros rv h Hk. exact Hk. Qed.

Lemma rv_step_keeps_latch_consistent_witness :
  rv_step io no_fp full 1 (at_0x1000 BEQ_x0_x0_plus_6) 1 =
    Returned misaligned_hart /\
  exception misaligned_hart = rv_except_inst_misaligned /\
  PC misaligned_hart = 0x1006 /\
  latch_consistent misaligned_hart.
Proof.
  assert (R : rv_step io no_fp full 1 (at_0x1000 BEQ_x0_x0_plus_6) 1 =
              Returned misaligned_hart) by (vm_compute; reflexivity).
  split; [exact R|]. split; [reflexivity|]. split; [reflexivity|].
  apply (rv_step_keeps_latch_consistent io no_fp full 1
           (at_0x1000 BEQ_x0_x0_plus_6) 1 misaligned_hart
           host_traps_keep_fetchable); [|exact R].
  left. split; reflexivity.
Defined.

Lemma handlers_keep_x0_witness :
  op_op_imm ADDI_x0_x0_7 (at_0x1000 0) =
    Some (true, after (op_op_imm ADDI_x0_x0_7) (at_0x1000 0)) /\
  x0_zero (after (op_op_imm ADDI_x0_x0_7) (at_0x1000 0)).
Proof.
  assert (E : op_op_imm ADDI_x0_x0_7 (at_0x1000 0) =
              Some (true, after (op_op_imm ADDI_x0_x0_7) (at_0x1000 0)))
    by (vm_compute; reflexivity).
  split; [exact E|].
  apply (handlers_keep_x0 io no_fp full op_op_imm ADDI_x0_x0_7
           (at_0x1000 0) true _ host_traps_keep_x0); [|reflexivity|exact E].
  right. left. reflexivity.
Defined.

Lemma rv_step_keeps_x0_witness :
  exists rv',
    rv_step io no_fp no_f 4 (at_0x1000 ADDI_x0_x0_7) 3 = Returned rv' /\
    csr_cycle rv' = 3 /\ x0_zero rv'.
Proof.
  destruct (rv_step io no_fp no_f 4 (at_0x1000 ADDI_x0_x0_7) 3)
    as [rv' | |] eqn:R; [| vm_compute in R; discriminate ..].
  exists rv'. split; [reflexivity|]. split.
  - vm_compute in R. injection R as <-. reflexivity.
  - apply (rv_step_keeps_x0 io no_fp no_f 4 (at_0x1000 ADDI_x0_x0_7) 3 rv'
             eq_refl host_traps_keep_x0); [reflexivity | exact R].
Defined.

Lemma instructions_keep_cycle_and_fcsr_witness :
  let rv := set_csr_cycle 41 (at_0x1000 0) in
  let rv' := after (op_system io full CSRRW_x1_cycle_x2) rv in
  X rv' 1 = 41 /\ csr_cycle rv' = 41 /\ csr_fcsr rv' = 0.
Proof.
  intros rv rv'. split; [reflexivity|].
  apply (instructions_keep_cycle_and_fcsr io no_fp full
           (op_system io full) CSRRW_x1_cycle_x2 rv true rv'
           (host_traps_keep_readonly _ _)).
  - do 28 right. left. reflexivity.
  - vm_compute. reflexivity.
Defined.

Lemma op_system_csr_read_only_witness :
  let rv := set_csr_cycle 41 (at_0x1000 0) in
  exists rv',
    op_system io full CSRRW_x1_cycle_x2 rv = Some (true, rv') /\
    X rv' 1 = 41 /\ csr_cycle rv' = 41 /\ PC rv' = 0x1004.
Proof.
  intros rv.
  destruct (op_system_csr_read_only io full CSRRW_x1_cycle_x2 rv)
    as (rv' & E & Hx & Hc & _ & _ & Hp).
  - reflexivity.
  - left. reflexivity.
  - vm_compute. discriminate.
  - vm_compute. discriminate.
  - exists rv'. split; [exact E|]. split; [exact Hx|].
    split; [exact Hc | exact Hp].
Defined.

Lemma op_system_csr_mstatus_witness :
  let rv := set_csr_mstatus 0x8 (at_0x1000 0) in
  exists rv',
    op_system io full CSRRS_x1_mstatus_x5 rv = Some (true, rv') /\
    X rv' 1 = 0x8 /\ csr_mstatus rv' = 0xd.
Proof.
  intros rv.
  destruct (op_system_csr_mstatus io full CSRRS_x1_mstatus_x5 rv)
    as (rv' & E & Hx & Hm & _).
  - reflexivity.
  - right. left. reflexivity.
  - reflexivity.
  - vm_compute. discriminate.
  - exists rv'. split; [exact E|]. split; [exact Hx | exact Hm].
Defined.

Lemma rv_step_within_budget_witness :
  exists rv',
    rv_step io no_fp full 4 (at_0x1000 ADDI_x1_x1_1) 3 = Returned rv' /\
    X rv' 1 = 3 /\
    0 <= csr_cycle rv' <= 3.
Proof.
  destruct (rv_step io no_fp full 4 (at_0x1000 ADDI_x1_x1_1) 3)
    as [rv' | |] eqn:R; [| vm_compute in R; discriminate ..].
  exists rv'. split; [reflexivity|]. split.
  - vm_compute in R. injection R as <-. reflexivity.
  - apply (rv_step_within_budget io no_fp full 4 (at_0x1000 ADDI_x1_x1_1) 3
             rv' host_traps_keep_cycle); [vm_compute; discriminate ..
                                         | reflexivity | exact R].
Defined.

Lemma rv_step_nothing_to_do_witness :
  rv_step io no_fp full 1 misaligned_hart 10 = Returned misaligned_hart /\
  rv_step io no_fp full 1 (at_0x1000 0) 0 = Returned (at_0x1000 0).
Proof.
  split.
  - apply (rv_step_nothing_to_do io no_fp full 0 misaligned_hart 10).
    left. vm_compute. discriminate.
  - apply (rv_step_nothing_to_do io no_fp full 0 (at_0x1000 0) 0).
    right. split; [reflexivity|]. vm_compute.
    split; [discriminate | reflexivity].
Defined.

Lemma rv_step_empty_slot_witness :
  rv_step io no_fp full 1 (at_0x1000 CUSTOM_0) 1 = Aborted.
Proof.
  apply (rv_step_empty_slot io no_fp full 0 (at_0x1000 CUSTOM_0) 1 CUSTOM_0
           (log (Ifetch 0x1000) (with_code CUSTOM_0 (fun _ => 0)))).
  - reflexivity.
  - reflexivity.
  - left. reflexivity.
Defined.

Lemma rv_step_extension_compiled_out_witness :
  rv_step io no_fp no_f 1 (at_0x1000 FADD_S_f0_f0_f0) 1 = Aborted.
Proof.
  apply (rv_step_extension_compiled_out io no_fp no_f 0
           (at_0x1000 FADD_S_f0_f0_f0) 1 FADD_S_f0_f0_f0
           (log (Ifetch 0x1000) (with_code FADD_S_f0_f0_f0 (fun _ => 0)))).
  - reflexivity.
  - reflexivity.
  - left. split; [reflexivity|]. do 6 right. left. reflexivity.
Defined.

Lemma rv_step_x64_jit_returns_when_witness :
  exists rv',
    rv_step_x64_jit io no_fp full declines 4 (at_0x1000 ADDI_x1_x1_1) 2 =
      Returned rv' /\
    X rv' 1 = 2 /\
    (u64 (csr_cycle (at_0x1000 ADDI_x1_x1_1) + 2) <= csr_cycle rv' \/
     exception rv' <> rv_except_none).
Proof.
  destruct (rv_step_x64_jit io no_fp full declines 4
              (at_0x1000 ADDI_x1_x1_1) 2) as [rv' | |] eqn:R;
    [| vm_compute in R; discriminate ..].
  exists rv'. split; [reflexivity|]. split.
  - vm_compute in R. injection R as <-. reflexivity.
  - exact (rv_step_x64_jit_returns_when io no_fp full declines 4
             (at_0x1000 ADDI_x1_x1_1) 2 rv' R).
Defined.

Lemma rv_step_x64_jit_spins_witness :
  rv_step_x64_jit io no_fp full declines 5 (at_0x1000 JAL_x0_0) 1 =
    OutOfFuel.
Proof.
  apply (rv_step_x64_jit_spins io no_fp full declines
           (fun h => forall a, code h a = JAL_x0_0) 5
           (at_0x1000 JAL_x0_0) 1 JAL_x0_0).
  - reflexivity.
  - reflexivity.
  - intros h Hh. split; [apply Hh | exact Hh].
  - reflexivity.
  - reflexivity.
  - vm_compute. split; [discriminate | reflexivity].
  - reflexivity.
  - reflexivity.
Defined.

Lemma rv_step_terminates_witness :
  exists rv',
    rv_step io no_fp full 4 (at_0x1000 ADDI_x1_x1_1) 3 = Returned rv'.
Proof.
  destruct (rv_step_terminates io no_fp full 4 (at_0x1000 ADDI_x1_x1_1) 3
              host_traps_keep_cycle) as [A | R].
  - vm_compute. discriminate.
  - vm_compute. discriminate.
  - vm_compute. reflexivity.
  - vm_compute. lia.
  - vm_compute in A. discriminate.
  - exact R.
Defined.

Lemma op_op_mul_high_low_witness :
  exists rlo rhi,
    op_op full MUL_x3_x1_x2 overflow_hart = Some (true, rlo) /\
    op_op full MULH_x4_x1_x2 overflow_hart = Some (true, rhi) /\
    s32 0x80000000 * s32 0xffffffff = s32 (X rhi 4) * 2 ^ 32 + X rlo 3.
Proof.
  destruct (op_op_mul_high_low full MUL_x3_x1_x2 MULH_x4_x1_x2 overflow_hart)
    as (rlo & rhi & El & Eh & Hp).
  - reflexivity.
  - reflexivity.
  - reflexivity.
  - reflexivity.
  - left. reflexivity.
  - reflexivity.
  - reflexivity.
  - vm_compute. discriminate.
  - vm_compute. discriminate.
  - vm_compute. split; [discriminate | reflexivity].
  - vm_compute. split; [discriminate | reflexivity].
  - exists rlo, rhi. split; [exact El|]. split; [exact Eh | exact Hp].
Defined.

Lemma op_op_div_rem_recombine_witness :
  exists rq rr,
    op_op full DIV_x3_x1_x2 overflow_hart = Some (true, rq) /\
    op_op full REM_x4_x1_x2 overflow_hart = Some (true, rr) /\
    u32 (s32 0xffffffff * s32 (X rq 3) + s32 (X rr 4)) = 0x80000000.
Proof.
  destruct (op_op_div_rem_recombine full DIV_x3_x1_x2 REM_x4_x1_x2
              overflow_hart)
    as (rq & rr & Eq & Er & Hp).
  - reflexivity.
  - reflexivity.
  - reflexivity.
  - left. split; reflexivity.
  - reflexivity.
  - reflexivity.
  - vm_compute. discriminate.
  - vm_compute. discriminate.
  - vm_compute. split; [discriminate | reflexivity].
  - vm_compute. split; [discriminate | reflexivity].
  - exists rq, rr. split; [exact Eq|]. split; [exact Er | exact Hp].
Defined.

Lemma op_op_add_sub_modular_witness :
  exists rv',
    op_op full ADD_x3_x1_x2 overflow_hart = Some (true, rv') /\
    X rv' 3 = 0x7fffffff.
Proof.
  destruct (op_op_add_sub_modular full ADD_x3_x1_x2 overflow_hart)
    as (rv' & E & Hx).
  - left. reflexivity.
  - reflexivity.
  - vm_compute. discriminate.
  - exists rv'. split; [exact E | exact Hx].
Defined.

Lemma op_op_shift_amount_witness :
  exists rv',
    op_op full SRA_x3_x1_x2 overflow_hart = Some (true, rv') /\
    X rv' 3 = 0xffffffff.
Proof.
  destruct (op_op_shift_amount full SRA_x3_x1_x2 overflow_hart)
    as (rv' & E & Hx).
  - right. split; reflexivity.
  - vm_compute. discriminate.
  - exists rv'. split; [exact E | exact Hx].
Defined.

Lemma op_op_imm_arithmetic_witness :
  exists rv',
    op_op_imm SRAI_x3_x1_4 negative_hart = Some (true, rv') /\
    X rv' 3 = 0xf8000001.
Proof.
  destruct (op_op_imm_arithmetic SRAI_x3_x1_4 negative_hart)
    as (rv' & E & Hx).
  - do 2 right. left. reflexivity.
  - vm_compute. discriminate.
  - exists rv'. split; [exact E | exact Hx].
Defined.

Lemma op_load_extension_witness :
  exists rv',
    op_load io LB_x3_0_x1 byte_hart = Some (true, rv') /\
    X rv' 3 = 0xffffff80 /\
    trace (userdata rv') = [ReadB 0x100].
Proof.
  destruct (op_load_extension io LB_x3_0_x1 byte_hart)
    as (rv' & E & Hu & _ & Hx).
  - left. reflexivity.
  - vm_compute. discriminate.
  - exists rv'. split; [exact E|]. split; [exact Hx|].
    rewrite Hu. reflexivity.
Defined.

Lemma op_amo_lr_sc_witness :
  (exists rv',
     op_amo io LR_W_x3_x1 amo_hart = Some (true, rv') /\
     X rv' 3 = 0x70100 /\
     trace (userdata rv') = [ReadW 0x100]) /\
  (exists rv',
     op_amo io SC_W_x3_x5_x1 amo_hart = Some (true, rv') /\
     X rv' 3 = 0 /\
     trace (userdata rv') = [WriteW 0x100 5]).
Proof.
  destruct (op_amo_lr_sc io LR_W_x3_x1 amo_hart) as [L _].
  destruct (op_amo_lr_sc io SC_W_x3_x5_x1 amo_hart) as [_ S].
  split.
  - destruct L as (rv' & E & Hu & Hx);
      [reflexivity | vm_compute; discriminate |].
    exists rv'. split; [exact E|]. split; [exact Hx|].
    rewrite Hu. reflexivity.
  - destruct S as (rv' & E & Hu & Hx); [reflexivity|].
    exists rv'. split; [exact E|]. split; [exact Hx|].
    rewrite Hu. reflexivity.
Defined.

Lemma op_fp_fmv_round_trip_witness :
  exists rv',
    bind (op_fp no_fp FMV_W_X_f1_x1) (fun _ => op_fp no_fp FMV_X_W_x3_f1)
         float_hart = Some (true, rv') /\
    X rv' 3 = 0x12345678.
Proof.
  destruct (op_fp_fmv_round_trip no_fp FMV_W_X_f1_x1 FMV_X_W_x3_f1
              float_hart eq_refl) as [G _].
  destruct G as (rv' & E & Hx); [reflexivity ..|].
  exists rv'. split; [exact E | exact Hx].
Defined.

Lemma op_fp_sign_injection_witness :
  exists rv',
    op_fp no_fp FSGNJN_S_f2_f1_f1 float_hart = Some (true, rv') /\
    Z.land (F rv' 2) 0x7fffffff = 0x3f800000 /\
    Z.testbit (F rv' 2) 31 = true.
Proof.
  destruct (op_fp_sign_injection no_fp FSGNJN_S_f2_f1_f1 float_hart)
    as (rv' & E & _ & Hm & Hs).
  - reflexivity.
  - right. left. reflexivity.
  - exists rv'. split; [exact E|]. split; [exact Hm | exact Hs].
Defined.

Lemma op_system_traps_witness :
  exists rv',
    op_system io full ECALL (at_0x1000 ECALL) = Some (true, rv') /\
    PC rv' = 0x1004 /\
    trace (userdata rv') = [Ecall 0x1000 ECALL].
Proof.
  destruct (op_system_traps io full ECALL (at_0x1000 ECALL))
    as (rv' & E & Hp & _ & _ & _ & _ & _ & Hu).
  - reflexivity.
  - left. reflexivity.
  - exists rv'. split; [exact E|]. split; [exact Hp|].
    rewrite Hu. reflexivity.
Defined.

Lemma reserved_encodings_assert_witness :
  op_store io SD_x0_0_x0 (at_0x1000 0) = None /\
  op_op no_m MUL_x3_x1_x2 overflow_hart = None.
Proof.
  destruct (reserved_encodings_assert io no_m SD_x0_0_x0 (at_0x1000 0))
    as (_ & S & _).
  destruct (reserved_encodings_assert io no_m MUL_x3_x1_x2 overflow_hart)
    as (_ & _ & _ & _ & M & _).
  split.
  - apply S. left. reflexivity.
  - apply M; reflexivity.
Defined.

Lemma op_system_csr_immediates_skipped_witness :
  let rv := set_csr_mstatus 0x8 (at_0x1000 0) in
  exists rv',
    op_system io full CSRRWI_x1_mstatus_5 rv = Some (true, rv') /\
    csr_mstatus rv' = 0x8 /\ X rv' 1 = 0 /\ PC rv' = 0x1004.
Proof.
  intros rv.
  destruct (op_system_csr_immediates_skipped io full CSRRWI_x1_mstatus_5 rv)
    as (rv' & E & Hx & _ & _ & Hm & _ & _ & _ & Hp).
  - reflexivity.
  - left. reflexivity.
  - vm_compute. discriminate.
  - exists rv'. split; [exact E|]. split; [exact Hm|].
    split; [rewrite Hx; reflexivity | exact Hp].
Defined.

End MoreScenarios.
